(** * Weather_App account lifecycle: a shallow embedding of [app.py]

    The development follows the layout of the source file:

    - [Text]: the byte-string operations the token format relies on
      ([rsplit], [startswith], the 64-bit big-endian integer codec);
    - [ItsDangerous]: the [URLSafeTimedSerializer] the application
      instantiates at lines 94, 128 and 190, parameterised over the
      primitives it delegates to (HMAC, key derivation, base64, JSON, zlib);
    - [App]: the world the handlers act on (table [user], login session,
      flashed messages, outgoing mail, clock) and one definition per route
      of [app.py], written in a state-and-exception monad;
    - the theorems about the credential lifecycle. *)

From Stdlib Require Import String Ascii List ZArith NArith Lia Bool.
Import ListNotations.

Local Open Scope list_scope.
Local Open Scope string_scope.

(* ===================================================================== *)
(** * Byte-string helpers *)
(* ===================================================================== *)

Module Text.

(** The separator of [itsdangerous.Signer]: [sep = b"."]. *)
Definition sep : ascii := "."%char.

(** [sep not in s]. *)
Fixpoint no_sep (s : string) : bool :=
  match s with
  | EmptyString => true
  | String c r => negb (Ascii.eqb c sep) && no_sep r
  end.

(** [s.rsplit(sep, 1)] for a string that contains the separator, and [None]
    when [sep not in s]: the split is at the LAST separator. *)
Fixpoint rsplit (s : string) : option (string * string) :=
  match s with
  | EmptyString => None
  | String c r =>
      match rsplit r with
      | Some (a, b) => Some (String c a, b)
      | None => if Ascii.eqb c sep then Some (EmptyString, r) else None
      end
  end.

(** [s.startswith(b".")] together with [s[1:]]. *)
Definition strip_marker (s : string) : bool * string :=
  match s with
  | String c r => if Ascii.eqb c sep then (true, r) else (false, s)
  | EmptyString => (false, s)
  end.

(** [sep.join([a, b])]. *)
Definition join (a b : string) : string := a ++ String sep b.

(** The big-endian value of a byte string. *)
Fixpoint from_bytes_acc (acc : N) (s : string) : N :=
  match s with
  | EmptyString => acc
  | String c r => from_bytes_acc (acc * 256 + N_of_ascii c)%N r
  end.

(** [b"\x00" * k]. *)
Fixpoint nuls (k : nat) : string :=
  match k with
  | O => EmptyString
  | S k' => String Ascii.zero (nuls k')
  end.

(** [s.rjust(8, b"\x00")]. *)
Definition rjust8 (s : string) : string := nuls (8 - String.length s) ++ s.

(** [bytes_to_int(s)], that is [struct.Struct(">Q").unpack(s.rjust(8,
    b"\x00"))[0]]: [unpack] refuses a buffer of more than eight bytes
    ([struct.error]), rendered here as [None]. *)
Definition bytes_to_int (s : string) : option N :=
  if (8 <? String.length s)%nat then None
  else Some (from_bytes_acc 0%N (rjust8 s)).

(** [struct.Struct(">Q").pack(n)]: the [k] low bytes of [n], most
    significant first. *)
Fixpoint pack_be (k : nat) (n : N) : string :=
  match k with
  | O => EmptyString
  | S k' => String (ascii_of_N ((n / 256 ^ N.of_nat k') mod 256)%N) (pack_be k' n)
  end.

(** [s.lstrip(b"\x00")]. *)
Fixpoint lstrip_nul (s : string) : string :=
  match s with
  | String c r => if Ascii.eqb c Ascii.zero then lstrip_nul r else s
  | EmptyString => EmptyString
  end.

(** [int_to_bytes(n)]: [struct.pack] refuses a number that does not fit an
    unsigned 64-bit word ([struct.error]), rendered here as [None]. *)
Definition int_to_bytes (n : N) : option string :=
  if (n <? 2 ^ 64)%N then Some (lstrip_nul (pack_be 8 n)) else None.

End Text.

(* ===================================================================== *)
(** * Exceptions and outcomes *)
(* ===================================================================== *)

(** The exception classes that can reach a handler of [app.py].  Every one
    of them derives from Python's [Exception]; [SignatureExpired] is the
    only one the handlers name in an [except] clause (lines 137 and 199). *)
Inductive exception : Type :=
| BadSignature        (* itsdangerous.exc.BadSignature *)
| BadTimeSignature    (* itsdangerous.exc.BadTimeSignature *)
| SignatureExpired    (* itsdangerous.exc.SignatureExpired *)
| BadPayload          (* itsdangerous.exc.BadPayload *)
| NotFound            (* werkzeug.exceptions.NotFound, from first_or_404 *)
| IntegrityError      (* sqlalchemy.exc.IntegrityError, from commit *)
| SMTPException       (* smtplib.SMTPException, from mail.send *)
| StructError         (* struct.error, from int_to_bytes *)
| TypeError           (* raise of a non-exception *)
| ValueError          (* ValueError, from bcrypt.hashpw and bcrypt.checkpw *)
| DateOutOfRange.     (* ValueError, OSError or OverflowError (by the size of
                         the timestamp), from datetime.fromtimestamp *)

Definition exception_eqb (a b : exception) : bool :=
  match a, b with
  | BadSignature, BadSignature | BadTimeSignature, BadTimeSignature
  | SignatureExpired, SignatureExpired | BadPayload, BadPayload
  | NotFound, NotFound | IntegrityError, IntegrityError
  | SMTPException, SMTPException | StructError, StructError
  | TypeError, TypeError | ValueError, ValueError
  | DateOutOfRange, DateOutOfRange => true
  | _, _ => false
  end.

(** [isinstance(e, BadSignature)]: the class and its two subclasses. *)
Definition is_bad_signature (e : exception) : bool :=
  match e with
  | BadSignature | BadTimeSignature | SignatureExpired => true
  | _ => false
  end.

(** A Python call either returns a value or raises. *)
Inductive outcome (A : Type) : Type :=
| Return (a : A)
| Raise (e : exception).
Arguments Return {A} a.
Arguments Raise {A} e.

(* ===================================================================== *)
(** * The signed token service: [itsdangerous.URLSafeTimedSerializer] *)
(* ===================================================================== *)

Module ItsDangerous.
Import Text.

(** One signer configuration: how the key is derived from the secret and
    the salt ([Signer.derive_key]) and the keyed digest
    ([SigningAlgorithm.get_signature]). *)
Record Signer : Type := {
  derive_key : string -> string -> string;   (* secret_key, salt *)
  hmac_digest : string -> string -> string   (* key, value *)
}.

(** What the serializer delegates to other libraries. *)
Class Primitives : Type := {
  base64_encode : string -> string;           (* urlsafe, padding stripped *)
  base64_decode : string -> option string;
  json_dumps : string -> string;              (* compact JSON of a text *)
  json_loads : string -> option string;
  zlib_compress : string -> string;
  zlib_decompress : string -> option string;
  default_signer : Signer;
  fallback_signers : list Signer
}.

Section Serializer.
Context {P : Primitives}.

(** [Signer.get_signature]. *)
Definition get_signature (sg : Signer) (secret salt value : string) : string :=
  base64_encode (hmac_digest sg (derive_key sg secret salt) value).

(** [Signer.verify_signature]. *)
Definition verify_signature (sg : Signer) (secret salt value sig : string) : bool :=
  match base64_decode sig with
  | None => false
  | Some raw => String.eqb raw (hmac_digest sg (derive_key sg secret salt) value)
  end.

(** [Signer.unsign]: [inr value] when the signature matches, [inl payload]
    for the [BadSignature] it raises otherwise ([payload] is [None] when the
    separator is missing). *)
Definition signer_unsign (sg : Signer) (secret salt signed_value : string)
  : option string + string :=
  match rsplit signed_value with
  | None => inl None
  | Some (value, sig) =>
      if verify_signature sg secret salt value sig then inr value
      else inl (Some value)
  end.

(** [TimestampSigner.sign] at clock reading [now]. *)
Definition timestamp_sign (sg : Signer) (secret salt : string) (now : N)
    (value : string) : outcome string :=
  match int_to_bytes now with
  | None => Raise StructError
  | Some b =>
      let value := join value (base64_encode b) in
      Return (join value (get_signature sg secret salt value))
  end.

(** The last second [datetime] can represent: 9999-12-31T23:59:59Z. *)
Definition max_datetime : N := 253402300799.

(** [TimestampSigner.timestamp_to_datetime(ts)], that is
    [datetime.fromtimestamp(ts, tz=timezone.utc)]: a date past the year
    9999 raises.  The date itself is kept as its timestamp. *)
Definition timestamp_to_datetime (ts : N) : outcome N :=
  if (ts <=? max_datetime)%N then Return ts else Raise DateOutOfRange.

(** [raise SignatureExpired(..., date_signed=self.timestamp_to_datetime(ts))]:
    the date is converted before the exception is built. *)
Definition raise_expired {A : Type} (ts : N) : outcome A :=
  match timestamp_to_datetime ts with
  | Return _ => Raise SignatureExpired
  | Raise e => Raise e
  end.

(** [TimestampSigner.unsign(signed_value, max_age, return_timestamp=True)]
    at clock reading [now]. *)
Definition timestamp_unsign (sg : Signer) (secret salt : string) (now : N)
    (max_age : option Z) (signed_value : string) : outcome (string * N) :=
  let '(sig_error, result) :=
    match signer_unsign sg secret salt signed_value with
    | inr value => (false, value)
    | inl (Some payload) => (true, payload)
    | inl None => (true, EmptyString)
    end in
  match rsplit result with
  | None => if sig_error then Raise BadSignature else Raise BadTimeSignature
  | Some (value, ts_bytes) =>
      let ts_int :=
        match base64_decode ts_bytes with
        | Some b => bytes_to_int b
        | None => None
        end in
      if sig_error then
        match ts_int with
        | Some ts =>
            match timestamp_to_datetime ts with
            | Return _ => Raise BadTimeSignature   (* the signature error *)
            | Raise _ => Raise BadTimeSignature    (* "Malformed timestamp" *)
            end
        | None => Raise BadTimeSignature
        end
      else
        match ts_int with
        | None => Raise BadTimeSignature
        | Some ts =>
            let returned :=
              match timestamp_to_datetime ts with
              | Return date => Return (value, date)
              | Raise e => Raise e
              end in
            match max_age with
            | Some m =>
                let age := (Z.of_N now - Z.of_N ts)%Z in
                if (age >? m)%Z then raise_expired ts
                else if (age <? 0)%Z then raise_expired ts
                else returned
            | None => returned
            end
        end
  end.

(** [URLSafeSerializerMixin.dump_payload]: compact JSON, compressed when
    that saves more than one byte, base64, and a leading separator as the
    compression marker. *)
Definition dump_payload (obj : string) : string :=
  let json := json_dumps obj in
  let compressed := zlib_compress json in
  if (S (String.length compressed) <? String.length json)%nat
  then String sep (base64_encode compressed)
  else base64_encode json.

(** [URLSafeSerializerMixin.load_payload]. *)
Definition load_payload (payload : string) : outcome string :=
  let '(decompress, body) := strip_marker payload in
  match base64_decode body with
  | None => Raise BadPayload
  | Some json =>
      let text := if decompress then zlib_decompress json else Some json in
      match text with
      | None => Raise BadPayload
      | Some j =>
          match json_loads j with
          | None => Raise BadPayload
          | Some obj => Return obj
          end
      end
  end.

(** [Serializer.dumps(obj, salt)]. *)
Definition dumps (secret salt : string) (now : N) (obj : string) : outcome string :=
  timestamp_sign default_signer secret salt now (dump_payload obj).

(** The loop of [TimedSerializer.loads] over [iter_unsigners(salt)]. *)
Fixpoint loads_iter (signers : list Signer) (last_exception : exception)
    (secret salt : string) (now : N) (max_age : option Z) (s : string)
  : outcome string :=
  match signers with
  | [] => Raise last_exception
  | sg :: rest =>
      match timestamp_unsign sg secret salt now max_age s with
      | Return (base64d, _) => load_payload base64d
      | Raise SignatureExpired => Raise SignatureExpired
      | Raise e =>
          if is_bad_signature e
          then loads_iter rest e secret salt now max_age s
          else Raise e
      end
  end.

(** [iter_unsigners]: the default signer, then the fallbacks. *)
Definition iter_unsigners : list Signer := default_signer :: fallback_signers.

(** [TimedSerializer.loads(s, max_age, salt)]. *)
Definition loads (secret salt : string) (now : N) (max_age : option Z)
    (s : string) : outcome string :=
  loads_iter iter_unsigners TypeError secret salt now max_age s.

End Serializer.
End ItsDangerous.

(* ===================================================================== *)
(** * The application: [app.py] *)
(* ===================================================================== *)

Module App.
Import Text ItsDangerous.

(** ** Data model *)

(** [class User(db.Model, UserMixin)], lines 35-41.  [password] holds the
    bcrypt hash. *)
Record User : Type := {
  id : nat;
  username : string;
  email : string;
  password : string;
  created_at : N;
  is_confirmed : bool
}.

(** [user.is_confirmed = b] and [user.password = h] on a loaded row. *)
Definition set_is_confirmed (u : User) (b : bool) : User :=
  {| id := id u; username := username u; email := email u;
     password := password u; created_at := created_at u; is_confirmed := b |}.

Definition set_password (u : User) (h : string) : User :=
  {| id := id u; username := username u; email := email u;
     password := h; created_at := created_at u; is_confirmed := is_confirmed u |}.

(** [flask_mail.Message(subject, recipients=..., sender=...)] with its body. *)
Record Message : Type := {
  subject : string;
  recipients : list string;
  sender : option string;
  body : string
}.

(** [app.config]: the two entries the handlers read.  [MAIL_USERNAME] comes
    from [os.getenv] without a default and may be [None]. *)
Record Config : Type := {
  SECRET_KEY : string;
  MAIL_USERNAME : option string
}.

Inductive http_method : Type := GET | POST.

(** An inbound request: its method, whether the CSRF token Flask-WTF checks
    is valid, and the submitted form fields. *)
Record Request : Type := {
  method : http_method;
  csrf_valid : bool;
  form_data : list (string * string)
}.

(** What a view function returns. *)
Inductive Response : Type :=
| Redirect (endpoint : string)      (* redirect(url_for(endpoint)) *)
| Render (template : string).       (* render_template(template, ...) *)

(** Everything a handler can read or change.
    - [db]: the committed rows of table [user], oldest first;
    - [session_user_id]: the user id Flask-Login keeps in the session
      cookie of the client whose request is being served;
    - [flashes]: every [(message, category)] passed to [flash], in order;
    - [outbox]: the messages [mail.send] delivered;
    - [clock]: [int(time.time())];
    - [mail_transport]: whether [mail.send] succeeds on a message;
    - [salts_drawn]: how many times [bcrypt.gensalt] was called. *)
Record World : Type := {
  db : list User;
  session_user_id : option nat;
  flashes : list (string * string);
  outbox : list Message;
  clock : N;
  mail_transport : Message -> bool;
  salts_drawn : nat
}.

(** The libraries around the handlers that the token service does not
    cover: bcrypt, the WTForms validators and [url_for]. *)
Class Platform : Type := {
  hashpw : string -> string -> string;     (* bcrypt.hashpw(password, salt), for a
                                              password of at most 72 bytes *)
  checkpw : string -> string -> option bool;
                                           (* bcrypt.checkpw(password, hash), for a
                                              password of at most 72 bytes; None
                                              when the stored text is no bcrypt
                                              hash (ValueError) *)
  gensalt : nat -> string;                 (* the n-th bcrypt.gensalt() *)
  str_strip : string -> string;            (* str.strip() *)
  email_syntax : string -> bool;           (* wtforms.validators.Email *)
  url_for_external : string -> string -> string
                                           (* url_for(endpoint, token=t, _external=True) *)
}.

(** ** The handler monad: state that survives a raised exception *)

Definition M (A : Type) : Type := World -> outcome A * World.

Definition ret {A : Type} (a : A) : M A := fun w => (Return a, w).

Definition bind {A B : Type} (m : M A) (k : A -> M B) : M B :=
  fun w =>
    match m w with
    | (Return a, w') => k a w'
    | (Raise e, w') => (Raise e, w')
    end.

Definition raise {A : Type} (e : exception) : M A := fun w => (Raise e, w).

(** [try: body except Exception as e: handler(e)]. *)
Definition try_except {A : Type} (body : M A) (handler : exception -> M A) : M A :=
  fun w =>
    match body w with
    | (Return a, w') => (Return a, w')
    | (Raise e, w') => handler e w'
    end.

(** A pure library call that may raise. *)
Definition lift {A : Type} (o : outcome A) : M A := fun w => (o, w).

Definition gets {A : Type} (f : World -> A) : M A := fun w => (Return (f w), w).

Definition modify (f : World -> World) : M unit := fun w => (Return tt, f w).

Declare Scope handler_scope.
Delimit Scope handler_scope with handler.
Notation "x <- c ;; k" := (bind c (fun x => k))
  (at level 61, c at next level, right associativity) : handler_scope.
Notation "c ;; k" := (bind c (fun _ => k))
  (at level 61, right associativity) : handler_scope.
Local Open Scope handler_scope.

(** ** World updates *)

Definition with_db (w : World) (d : list User) : World :=
  {| db := d; session_user_id := session_user_id w; flashes := flashes w;
     outbox := outbox w; clock := clock w; mail_transport := mail_transport w;
     salts_drawn := salts_drawn w |}.

Definition with_session (w : World) (s : option nat) : World :=
  {| db := db w; session_user_id := s; flashes := flashes w;
     outbox := outbox w; clock := clock w; mail_transport := mail_transport w;
     salts_drawn := salts_drawn w |}.

Definition with_flashes (w : World) (f : list (string * string)) : World :=
  {| db := db w; session_user_id := session_user_id w; flashes := f;
     outbox := outbox w; clock := clock w; mail_transport := mail_transport w;
     salts_drawn := salts_drawn w |}.

Definition with_outbox (w : World) (o : list Message) : World :=
  {| db := db w; session_user_id := session_user_id w; flashes := flashes w;
     outbox := o; clock := clock w; mail_transport := mail_transport w;
     salts_drawn := salts_drawn w |}.

Definition with_salts_drawn (w : World) (n : nat) : World :=
  {| db := db w; session_user_id := session_user_id w; flashes := flashes w;
     outbox := outbox w; clock := clock w; mail_transport := mail_transport w;
     salts_drawn := n |}.

Definition with_clock (w : World) (t : N) : World :=
  {| db := db w; session_user_id := session_user_id w; flashes := flashes w;
     outbox := outbox w; clock := t; mail_transport := mail_transport w;
     salts_drawn := salts_drawn w |}.

Definition with_mail_transport (w : World) (f : Message -> bool) : World :=
  {| db := db w; session_user_id := session_user_id w; flashes := flashes w;
     outbox := outbox w; clock := clock w; mail_transport := f;
     salts_drawn := salts_drawn w |}.

(** ** The user store: [User.query] and [db.session] *)

(** [User.query.filter_by(...).first()] on a table. *)
Definition first_by (p : User -> bool) (rows : list User) : option User :=
  List.find p rows.

Definition by_email (e : string) (u : User) : bool := String.eqb (email u) e.
Definition by_username (n : string) (u : User) : bool := String.eqb (username u) n.
Definition by_id (i : nat) (u : User) : bool := Nat.eqb (id u) i.

(** The primary key the table gives a new row: one more than the largest
    key in use (SQLite's [INTEGER PRIMARY KEY]; the default database URI of
    line 20 is SQLite). *)
Definition next_id (rows : list User) : nat :=
  S (fold_right (fun u m => Nat.max (id u) m) O rows).

(** [UPDATE user SET ... WHERE id = ?]. *)
Definition update_row (u : User) (rows : list User) : list User :=
  map (fun r => if by_id (id u) r then u else r) rows.

(** [DELETE FROM user WHERE id = ?]. *)
Definition delete_row (u : User) (rows : list User) : list User :=
  filter (fun r => negb (by_id (id u) r)) rows.

(** The [unique=True] constraints of lines 37 and 38. *)
Definition violates_unique (username_ email_ : string) (rows : list User) : bool :=
  existsb (fun r => by_username username_ r || by_email email_ r) rows.

Definition query_first (p : User -> bool) : M (option User) :=
  gets (fun w => first_by p (db w)).

(** [User.query.filter_by(...).first_or_404()]. *)
Definition query_first_or_404 (p : User -> bool) : M User :=
  found <- query_first p ;;
  match found with
  | Some u => ret u
  | None => raise NotFound
  end.

(** [db.session.add(User(username=.., email=.., password=..))] followed by
    [db.session.commit()]: the row gets its key, [created_at] and the
    column default [is_confirmed = False]; a violated unique constraint
    raises and stores nothing. *)
Definition add_and_commit (username_ email_ password_ : string) : M User :=
  fun w =>
    if violates_unique username_ email_ (db w) then (Raise IntegrityError, w)
    else
      let row := {| id := next_id (db w); username := username_;
                    email := email_; password := password_;
                    created_at := clock w; is_confirmed := false |} in
      (Return row, with_db w (db w ++ [row])%list).

(** [db.session.commit()] after an attribute of the loaded row changed. *)
Definition commit_update (u : User) : M unit :=
  modify (fun w => with_db w (update_row u (db w))).

(** [db.session.delete(user)] followed by [db.session.commit()]. *)
Definition delete_and_commit (u : User) : M unit :=
  modify (fun w => with_db w (delete_row u (db w))).

(** ** Flask, Flask-Login and Flask-Mail *)

(** [flash(message, category)]. *)
Definition flash (message category : string) : M unit :=
  modify (fun w => with_flashes w (flashes w ++ [(message, category)])%list).

(** [mail.send(msg)]: delivers, or raises when the transport fails. *)
Definition mail_send (msg : Message) : M unit :=
  fun w =>
    if mail_transport w msg
    then (Return tt, with_outbox w (outbox w ++ [msg])%list)
    else (Raise SMTPException, w).

(** [login_user(user)] and [logout_user()]. *)
Definition login_user (u : User) : M unit :=
  modify (fun w => with_session w (Some (id u))).

Definition logout_user : M unit :=
  modify (fun w => with_session w None).

(** [load_user], lines 44-46: [db.session.get(User, int(user_id))]. *)
Definition load_user (user_id : nat) : M (option User) :=
  query_first (by_id user_id).

(** [current_user]: the loaded row of the session's user, if any. *)
Definition current_user : M (option User) :=
  sid <- gets session_user_id ;;
  match sid with
  | Some i => load_user i
  | None => ret None
  end.

(** [@login_required] with [login_manager.login_view = 'signin'] (line 31):
    an anonymous request is flashed Flask-Login's default message and
    redirected to the sign-in page. *)
Definition login_required (view : User -> M Response) : M Response :=
  cu <- current_user ;;
  match cu with
  | Some u => view u
  | None =>
      flash "Please log in to access this page." "message" ;;
      ret (Redirect "signin")
  end.

Section Handlers.
Context {P : Primitives} {L : Platform}.
Variable config : Config.

(** [bcrypt.gensalt()]. *)
Definition draw_salt : M string :=
  n <- gets salts_drawn ;;
  modify (fun w => with_salts_drawn w (S n)) ;;
  ret (gensalt n).

(** bcrypt hashes at most 72 bytes of password and raises [ValueError] on
    a longer one; the handlers pass [form.<field>.data.encode('utf-8')],
    so the length is the one of the encoded text. *)
Definition bcrypt_max_password : nat := 72.

(** [bcrypt.hashpw(password, salt)]. *)
Definition bcrypt_hashpw (pw salt : string) : M string :=
  if (bcrypt_max_password <? String.length pw)%nat then raise ValueError
  else ret (hashpw pw salt).

(** [bcrypt.checkpw(password, hashed_password)]. *)
Definition bcrypt_checkpw (pw hashed : string) : M bool :=
  if (bcrypt_max_password <? String.length pw)%nat then raise ValueError
  else match checkpw pw hashed with
       | Some matches => ret matches
       | None => raise ValueError
       end.

(** ** Forms, lines 66-90 *)

(** [form.<name>.data]; an absent field has no text. *)
Fixpoint field (name : string) (data : list (string * string)) : string :=
  match data with
  | [] => EmptyString
  | (k, v) :: rest => if String.eqb k name then v else field name rest
  end.

(** [DataRequired()]: the data is non-empty, also after [strip()]. *)
Definition DataRequired (data : string) : bool :=
  negb (String.eqb data EmptyString) && negb (String.eqb (str_strip data) EmptyString).

(** [FlaskForm.validate_on_submit()] given the form's own validators. *)
Definition validate_on_submit (validators : list (string * string) -> bool)
    (req : Request) : bool :=
  match method req with
  | POST => csrf_valid req && validators (form_data req)
  | GET => false
  end.

Definition SigninForm (d : list (string * string)) : bool :=
  DataRequired (field "username" d) && DataRequired (field "password" d).

Definition SignupForm (d : list (string * string)) : bool :=
  DataRequired (field "username" d)
  && (DataRequired (field "email" d) && email_syntax (field "email" d))
  && DataRequired (field "password" d).

Definition ResetPasswordForm (d : list (string * string)) : bool :=
  DataRequired (field "email" d) && email_syntax (field "email" d).

Definition ResetPasswordConfirmForm (d : list (string * string)) : bool :=
  DataRequired (field "new_password" d)
  && (DataRequired (field "confirm_password" d)
      && String.eqb (field "confirm_password" d) (field "new_password" d)).

Definition ChangePasswordForm (d : list (string * string)) : bool :=
  DataRequired (field "old_password" d)
  && DataRequired (field "new_password" d)
  && (DataRequired (field "confirm_password" d)
      && String.eqb (field "confirm_password" d) (field "new_password" d)).

(** ** Utility functions, lines 93-102 *)

Definition generate_token (email_ salt : string) : M string :=
  now <- gets clock ;;
  lift (dumps (SECRET_KEY config) salt now email_).

(** [Serializer(app.config['SECRET_KEY']).loads(token, salt=.., max_age=..)],
    lines 128-129 and 190-191. *)
Definition serializer_loads (token salt : string) (max_age : Z) : M string :=
  now <- gets clock ;;
  lift (loads (SECRET_KEY config) salt now (Some max_age) token).

Definition send_confirmation_email (user : User) : M unit :=
  token <- generate_token (email user) "email-confirmation" ;;
  let confirm_url := url_for_external "confirm_email" token in
  let msg := {| subject := "Email Confirmation";
                recipients := [email user];
                sender := MAIL_USERNAME config;
                body := "Please confirm your email: " ++ confirm_url |} in
  mail_send msg.

(** ** Routes, lines 105-232 *)

Definition index : M Response := ret (Render "index.html").

Definition signup (req : Request) : M Response :=
  let form := form_data req in
  if validate_on_submit SignupForm req then
    existing <- query_first (by_email (field "email" form)) ;;
    match existing with
    | Some _ =>
        flash "Email already exists." "danger" ;;
        ret (Redirect "signup")
    | None =>
        salt <- draw_salt ;;
        hashed_password <- bcrypt_hashpw (field "password" form) salt ;;
        new_user <- add_and_commit (field "username" form) (field "email" form)
                                   hashed_password ;;
        send_confirmation_email new_user ;;
        flash "Account created! Please check your email to confirm." "success" ;;
        ret (Redirect "signin")
    end
  else ret (Render "signup.html").

Definition confirm_email (token : string) : M Response :=
  try_except
    (email_ <- serializer_loads token "email-confirmation" 3600 ;;
     user <- query_first_or_404 (by_email email_) ;;
     if negb (is_confirmed user) then
       commit_update (set_is_confirmed user true) ;;
       flash "Email confirmed!" "success"
     else
       flash "Email already confirmed." "info")
    (fun e =>
       if exception_eqb e SignatureExpired
       then flash "Confirmation link expired." "danger"
       else flash "Invalid confirmation link." "danger") ;;
  ret (Redirect "signin").

Definition signin (req : Request) : M Response :=
  let form := form_data req in
  if validate_on_submit SigninForm req then
    user <- query_first (by_username (field "username" form)) ;;
    match user with
    | Some u =>
        matches <- bcrypt_checkpw (field "password" form) (password u) ;;
        if matches then
          if is_confirmed u then
            login_user u ;;
            flash "Sign in successful!" "success" ;;
            ret (Redirect "profile")
          else
            flash "Please confirm your email first." "warning" ;;
            ret (Render "signin.html")
        else
          flash "Invalid username or password." "danger" ;;
          ret (Render "signin.html")
    | None =>
        flash "Invalid username or password." "danger" ;;
        ret (Render "signin.html")
    end
  else ret (Render "signin.html").

Definition profile : M Response :=
  login_required (fun _ => ret (Render "profile.html")).

Definition logout : M Response :=
  login_required (fun _ =>
    logout_user ;;
    flash "Logged out successfully." "info" ;;
    ret (Redirect "signin")).

Definition reset_password (req : Request) : M Response :=
  let form := form_data req in
  if validate_on_submit ResetPasswordForm req then
    user <- query_first (by_email (field "email" form)) ;;
    match user with
    | Some u =>
        token <- generate_token (email u) "password-reset" ;;
        let reset_url := url_for_external "reset_password_confirm" token in
        let msg := {| subject := "Password Reset Request";
                      recipients := [email u];
                      sender := MAIL_USERNAME config;
                      body := "Reset your password here: " ++ reset_url |} in
        mail_send msg ;;
        flash "Reset link sent to your email." "info" ;;
        ret (Redirect "signin")
    | None =>
        flash "Email not found." "danger" ;;
        ret (Render "reset_password.html")
    end
  else ret (Render "reset_password.html").

(** The [try] block returns from the view on a successful reset and falls
    through to the final [render_template] otherwise: [Some] is a [return]
    inside the block or a handler, [None] the fall-through. *)
Definition reset_password_confirm (token : string) (req : Request) : M Response :=
  let form := form_data req in
  returned <-
    try_except
      (email_ <- serializer_loads token "password-reset" 3600 ;;
       user <- query_first_or_404 (by_email email_) ;;
       if validate_on_submit ResetPasswordConfirmForm req then
         salt <- draw_salt ;;
         hashed_password <- bcrypt_hashpw (field "new_password" form) salt ;;
         commit_update (set_password user hashed_password) ;;
         flash "Password reset successful!" "success" ;;
         ret (Some (Redirect "signin"))
       else ret None)
      (fun e =>
         if exception_eqb e SignatureExpired
         then flash "Reset link expired." "danger" ;;
              ret (Some (Redirect "signin"))
         else flash "Invalid reset link." "danger" ;;
              ret (Some (Redirect "signin"))) ;;
  match returned with
  | Some response => ret response
  | None => ret (Render "reset_password_confirm.html")
  end.

Definition change_password (req : Request) : M Response :=
  login_required (fun user =>
    let form := form_data req in
    if validate_on_submit ChangePasswordForm req then
      matches <- bcrypt_checkpw (field "old_password" form) (password user) ;;
      if matches then
        salt <- draw_salt ;;
        hashed_password <- bcrypt_hashpw (field "new_password" form) salt ;;
        commit_update (set_password user hashed_password) ;;
        flash "Password changed successfully!" "success" ;;
        ret (Redirect "profile")
      else
        flash "Incorrect old password." "danger" ;;
        ret (Render "change_password.html")
    else ret (Render "change_password.html")).

Definition delete_account (req : Request) : M Response :=
  login_required (fun user =>
    match method req with
    | POST =>
        delete_and_commit user ;;
        logout_user ;;
        flash "Account deleted successfully." "success" ;;
        ret (Redirect "signin")
    | GET => ret (Render "delete_account.html")
    end).

(** ** The application as a transition system *)

(** One inbound request to one of the routes. *)
Inductive Call : Type :=
| CallIndex
| CallSignup (req : Request)
| CallConfirmEmail (token : string)
| CallSignin (req : Request)
| CallProfile
| CallLogout
| CallResetPassword (req : Request)
| CallResetPasswordConfirm (token : string) (req : Request)
| CallChangePassword (req : Request)
| CallDeleteAccount (req : Request).

Definition dispatch (c : Call) : M Response :=
  match c with
  | CallIndex => index
  | CallSignup req => signup req
  | CallConfirmEmail token => confirm_email token
  | CallSignin req => signin req
  | CallProfile => profile
  | CallLogout => logout
  | CallResetPassword req => reset_password req
  | CallResetPasswordConfirm token req => reset_password_confirm token req
  | CallChangePassword req => change_password req
  | CallDeleteAccount req => delete_account req
  end.

(** What can happen to the world from one request to the next: a request
    is served, time passes, the mail transport changes its mind, or the next
    request comes from another client.  Flask-Login keeps the user id in
    the cookie of each client, so [session_user_id] is the cookie of the
    client being served; which cookies the other clients hold is not
    tracked, and [step_client] lets the next one bring any. *)
Inductive step : World -> World -> Prop :=
| step_call (c : Call) (w : World) :
    step w (snd (dispatch c w))
| step_tick (dt : N) (w : World) :
    step w (with_clock w (clock w + dt)%N)
| step_transport (f : Message -> bool) (w : World) :
    step w (with_mail_transport w f)
| step_client (cookie : option nat) (w : World) :
    step w (with_session w cookie).

(** A freshly created database ([db.create_all()], line 236), nobody
    signed in. *)
Definition initial (w : World) : Prop :=
  db w = [] /\ session_user_id w = None.

Inductive reachable : World -> Prop :=
| reachable_initial (w : World) : initial w -> reachable w
| reachable_step (w w' : World) : reachable w -> step w w' -> reachable w'.

End Handlers.
End App.

(* ===================================================================== *)
(** * A small executable instance of the libraries *)
(* ===================================================================== *)

(** Stand-ins for the library primitives that are simple enough to compute
    with and that satisfy the contracts the theorems below assume.  They
    make every handler executable on concrete requests. *)
Module Sample.
Import Text ItsDangerous App.

(** A two-characters-per-byte text encoding over the sixteen characters
    ["@"], ["A"] .. ["O"]: separator free, like the URL-safe base64
    alphabet. *)
Definition nibble (a b c d : bool) : ascii :=
  Ascii a b c d false false true false.

Fixpoint nibbles_encode (s : string) : string :=
  match s with
  | EmptyString => EmptyString
  | String (Ascii a b c d e f g h) r =>
      String (nibble a b c d) (String (nibble e f g h) (nibbles_encode r))
  end.

Fixpoint nibbles_decode (s : string) : option string :=
  match s with
  | EmptyString => Some EmptyString
  | String (Ascii a b c d false false true false)
      (String (Ascii e f g h false false true false) r) =>
      option_map (String (Ascii a b c d e f g h)) (nibbles_decode r)
  | _ => None
  end.

(** A one-character tag in front of the text stands for the JSON quoting
    and for the zlib framing. *)
Definition tag (t : ascii) (s : string) : string := String t s.

Definition untag (t : ascii) (s : string) : option string :=
  match s with
  | String c r => if Ascii.eqb c t then Some r else None
  | EmptyString => None
  end.

(** Keyed digests that keep the key visible: two signers never agree, and
    neither do two salts. *)
Definition sample_signer (name : string) : Signer :=
  {| derive_key := fun secret salt => salt ++ "signer" ++ secret;
     hmac_digest := fun key value => name ++ key ++ "/" ++ value |}.

#[export] Instance sample_primitives : Primitives :=
  {| base64_encode := nibbles_encode;
     base64_decode := nibbles_decode;
     json_dumps := tag "J";
     json_loads := untag "J";
     zlib_compress := tag "Z";
     zlib_decompress := untag "Z";
     default_signer := sample_signer "sha1:";
     fallback_signers := [sample_signer "sha512:"] |}.

Fixpoint has_at (s : string) : bool :=
  match s with
  | EmptyString => false
  | String c r => Ascii.eqb c "@" || has_at r
  end.

#[export] Instance sample_platform : Platform :=
  {| hashpw := fun pw salt => salt ++ pw;
     checkpw := fun pw hashed => Some (String.eqb hashed ("$2b$" ++ pw));
     gensalt := fun _ => "$2b$";
     str_strip := fun s => s;
     email_syntax := has_at;
     url_for_external := fun endpoint token =>
                           "http://localhost/" ++ endpoint ++ "/" ++ token |}.

Definition sample_config : Config :=
  {| SECRET_KEY := "your_default_secret_key"; MAIL_USERNAME := None |}.

(** An empty database at clock reading [t], with a mail transport that
    works ([up = true]) or fails on every message. *)
Definition fresh_world (t : N) (up : bool) : World :=
  {| db := []; session_user_id := None; flashes := []; outbox := [];
     clock := t; mail_transport := fun _ => up; salts_drawn := 0 |}.

Definition post (fields : list (string * string)) : Request :=
  {| method := POST; csrf_valid := true; form_data := fields |}.

Definition alice_signup : Request :=
  post [("username", "alice"); ("email", "alice@x.com"); ("password", "pw1")].

(** The world after alice signed up at clock reading 1000. *)
Definition after_signup : World :=
  snd (signup sample_config alice_signup (fresh_world 1000 true)).

(** The token of the confirmation mail alice was sent. *)
Definition alice_token : string :=
  match generate_token sample_config "alice@x.com" "email-confirmation"
          (fresh_world 1000 true) with
  | (Return t, _) => t
  | _ => EmptyString
  end.

(** The token of a reset mail requested at clock reading 1000. *)
Definition alice_reset_token : string :=
  match generate_token sample_config "alice@x.com" "password-reset"
          (fresh_world 1000 true) with
  | (Return t, _) => t
  | _ => EmptyString
  end.

(** The world after alice confirmed her address ten seconds later. *)
Definition after_confirm : World :=
  snd (confirm_email sample_config alice_token (with_clock after_signup 1010)).

(** The world alice's links are presented in after their hour has passed. *)
Definition hour_later : World := with_clock after_signup 5000.


Definition alice_signin (pw : string) : Request :=
  post [("username", "alice"); ("password", pw)].

Definition alice_new_password : Request :=
  post [("new_password", "pw2"); ("confirm_password", "pw2")].

Definition alice_row : User :=
  {| id := 1; username := "alice"; email := "alice@x.com";
     password := "$2b$pw1"; created_at := 1000; is_confirmed := false |}.

(** A password one byte past what bcrypt takes. *)
Definition long_password : string :=
  "0123456789012345678901234567890123456789012345678901234567890123456789012".

(** The first second past the year 9999, and a fresh world at that time. *)
Definition year_10000 : N := 253402300800.

Definition late_world : World := fresh_world year_10000 true.

(** A confirmation token issued at that time. *)
Definition late_token : string :=
  match generate_token sample_config "alice@x.com" "email-confirmation" late_world with
  | (Return t, _) => t
  | _ => EmptyString
  end.

(** Serving one request. *)
Definition serve (c : Call) (w : World) : World :=
  snd (dispatch sample_config c w).

(** The scenario of section 8 of the specification, up to the reset. *)
Definition after_reset : World :=
  serve (CallResetPasswordConfirm alice_reset_token alice_new_password)
    (serve (CallResetPassword (post [("email", "alice@x.com")]))
       (serve (CallLogout)
          (serve (CallSignin (alice_signin "pw1"))
             (serve (CallConfirmEmail alice_token)
                (serve (CallSignup alice_signup) (fresh_world 1000 true)))))).

End Sample.

(* ===================================================================== *)
(** * Facts about the byte-string helpers *)
(* ===================================================================== *)

Module TextFacts.
Import Text.

Lemma rsplit_no_sep (s : string) : no_sep s = true -> rsplit s = None.
Proof.
  induction s as [|c r IH]; simpl; [reflexivity|].
  intros H. apply andb_prop in H. destruct H as [Hc Hr].
  rewrite (IH Hr). apply negb_true_iff in Hc. now rewrite Hc.
Qed.

Lemma rsplit_none_no_sep (s : string) : rsplit s = None -> no_sep s = true.
Proof.
  induction s as [|c r IH]; simpl; [reflexivity|].
  destruct (rsplit r) as [[a b]|]; [discriminate|].
  destruct (Ascii.eqb c sep); [discriminate|]. intros _. now rewrite IH.
Qed.

(** Splitting a joined pair gives the pair back whenever the right
    component is separator free; the left component may contain any number
    of separators. *)
Lemma rsplit_join (a b : string) :
  no_sep b = true -> rsplit (join a b) = Some (a, b).
Proof.
  intros Hb. unfold join. induction a as [|c a IH]; simpl.
  - now rewrite (rsplit_no_sep b Hb).
  - now rewrite IH.
Qed.

Lemma strip_marker_no_sep (s : string) :
  no_sep s = true -> strip_marker s = (false, s).
Proof.
  destruct s as [|c r]; simpl; [reflexivity|].
  intros H. apply andb_prop in H. destruct H as [Hc _].
  apply negb_true_iff in Hc. now rewrite Hc.
Qed.

Lemma strip_marker_marked (s : string) :
  strip_marker (String sep s) = (true, s).
Proof. reflexivity. Qed.

Lemma from_bytes_acc_lstrip (s : string) :
  from_bytes_acc 0 (lstrip_nul s) = from_bytes_acc 0 s.
Proof.
  induction s as [|c r IH]; simpl; [reflexivity|].
  destruct (Ascii.eqb c Ascii.zero) eqn:E; [|reflexivity].
  apply Ascii.eqb_eq in E. subst c. exact IH.
Qed.

Lemma from_bytes_acc_pack (k : nat) (n acc : N) :
  from_bytes_acc acc (pack_be k n)
  = (acc * 256 ^ N.of_nat k + n mod 256 ^ N.of_nat k)%N.
Proof.
  revert acc. induction k as [|k IH]; intros acc.
  - simpl. rewrite N.mod_1_r. lia.
  - cbn [pack_be from_bytes_acc]. rewrite IH.
    rewrite N_ascii_embedding by (apply N.mod_upper_bound; lia).
    rewrite Nnat.Nat2N.inj_succ, N.pow_succ_r'.
    set (p := (256 ^ N.of_nat k)%N).
    assert (Hp : (p <> 0)%N) by (unfold p; apply N.pow_nonzero; lia).
    rewrite (N.mul_comm 256 p), N.Div0.mod_mul_r.
    lia.
Qed.

Lemma from_bytes_acc_nuls (k : nat) (s : string) :
  from_bytes_acc 0 (nuls k ++ s) = from_bytes_acc 0 s.
Proof. induction k as [|k IH]; [reflexivity | exact IH]. Qed.

Lemma length_lstrip_nul (s : string) :
  String.length (lstrip_nul s) <= String.length s.
Proof.
  induction s as [|c r IH]; simpl; [lia|].
  destruct (Ascii.eqb c Ascii.zero); simpl; lia.
Qed.

Lemma length_pack_be (k : nat) (n : N) : String.length (pack_be k n) = k.
Proof. induction k as [|k IH]; simpl; [reflexivity | now rewrite IH]. Qed.

(** Decoding what [int_to_bytes] produced gives the number back: the
    stripped encoding is at most eight bytes long. *)
Lemma bytes_to_int_to_bytes (n : N) (s : string) :
  int_to_bytes n = Some s -> bytes_to_int s = Some n.
Proof.
  unfold int_to_bytes, bytes_to_int.
  destruct (n <? 2 ^ 64)%N eqn:E; [|discriminate].
  intros H. assert (Hs : s = lstrip_nul (pack_be 8 n)) by congruence.
  subst s. clear H.
  pose proof (length_lstrip_nul (pack_be 8 n)) as Hlen.
  rewrite length_pack_be in Hlen.
  destruct (Nat.ltb_spec 8 (String.length (lstrip_nul (pack_be 8 n)))) as [Hgt|_];
    [lia|].
  f_equal. unfold rjust8.
  rewrite from_bytes_acc_nuls, from_bytes_acc_lstrip, from_bytes_acc_pack.
  apply N.ltb_lt in E. change (256 ^ N.of_nat 8)%N with (2 ^ 64)%N.
  rewrite N.mod_small by exact E. lia.
Qed.

Lemma int_to_bytes_fits (n : N) :
  (n < 2 ^ 64)%N -> exists s, int_to_bytes n = Some s.
Proof.
  intros H. unfold int_to_bytes. apply N.ltb_lt in H. rewrite H. eauto.
Qed.

End TextFacts.

(* ===================================================================== *)
(** * Facts about the signed token service *)
(* ===================================================================== *)

Module SerializerFacts.
Import Text TextFacts ItsDangerous.

Section Contracts.
Context {P : Primitives}.

(** The contracts of the primitives.  Decoding inverts encoding, and the
    URL-safe base64 alphabet does not contain the separator. *)
Definition base64_roundtrip : Prop :=
  forall s, base64_decode (base64_encode s) = Some s.

Definition base64_urlsafe : Prop :=
  forall s, no_sep (base64_encode s) = true.

Definition json_roundtrip : Prop :=
  forall s, json_loads (json_dumps s) = Some s.

Definition zlib_roundtrip : Prop :=
  forall s, zlib_decompress (zlib_compress s) = Some s.

(** Salt [a] is separated from salt [b] under [secret]: no signer keyed
    with [b] reproduces a digest the default signer made with [a]. *)
Definition salt_separated (secret a b : string) : Prop :=
  forall sg value,
    In sg iter_unsigners ->
    hmac_digest sg (derive_key sg secret b) value
    <> hmac_digest default_signer (derive_key default_signer secret a) value.

(** Some signer of the serializer accepts the signature of the token. *)
Definition signature_checks (secret salt token : string) : bool :=
  existsb (fun sg => match signer_unsign sg secret salt token with
                     | inr _ => true
                     | inl _ => false
                     end) iter_unsigners.

(** The two exceptions of a signature that fails to verify. *)
Definition signature_failure (e : exception) : Prop :=
  e = BadSignature \/ e = BadTimeSignature.

Section Laws.
Hypothesis b64 : base64_roundtrip.
Hypothesis b64_safe : base64_urlsafe.

Lemma verify_own_signature (sg : Signer) (secret salt value : string) :
  verify_signature sg secret salt value (get_signature sg secret salt value) = true.
Proof.
  unfold verify_signature, get_signature. rewrite b64. apply String.eqb_refl.
Qed.

Lemma signer_unsign_own (sg : Signer) (secret salt value : string) :
  signer_unsign sg secret salt (join value (get_signature sg secret salt value))
  = inr value.
Proof.
  unfold signer_unsign.
  rewrite rsplit_join by apply b64_safe.
  now rewrite verify_own_signature.
Qed.

(** What [unsign] makes of a token [sign] produced at clock reading [t0]:
    the age test decides, and nothing else can go wrong. *)
Lemma timestamp_unsign_sign (sg : Signer) (secret salt value token : string)
    (t0 now : N) (m : Z) :
  timestamp_sign sg secret salt t0 value = Return token ->
  timestamp_unsign sg secret salt now (Some m) token
  = if (Z.of_N now - Z.of_N t0 >? m)%Z then raise_expired t0
    else if (Z.of_N now - Z.of_N t0 <? 0)%Z then raise_expired t0
    else match timestamp_to_datetime t0 with
         | Return date => Return (value, date)
         | Raise e => Raise e
         end.
Proof.
  unfold timestamp_sign. destruct (int_to_bytes t0) as [b|] eqn:Eb; [|discriminate].
  intros H. assert (Ht : token = join (join value (base64_encode b))
    (get_signature sg secret salt (join value (base64_encode b)))) by congruence.
  subst token. clear H.
  unfold timestamp_unsign. rewrite signer_unsign_own.
  rewrite rsplit_join by apply b64_safe.
  rewrite b64. now rewrite (bytes_to_int_to_bytes t0 b Eb).
Qed.

Lemma timestamp_to_datetime_in_range (ts : N) :
  (ts <= max_datetime)%N -> timestamp_to_datetime ts = Return ts.
Proof.
  intros H. unfold timestamp_to_datetime. apply N.leb_le in H. now rewrite H.
Qed.

Lemma timestamp_to_datetime_out_of_range (ts : N) :
  (max_datetime < ts)%N -> timestamp_to_datetime ts = Raise DateOutOfRange.
Proof.
  intros H. unfold timestamp_to_datetime. apply N.leb_gt in H. now rewrite H.
Qed.

(** A token signed under salt [a] fails every signer keyed with a
    separated salt [b]. *)
Lemma signer_unsign_other_salt (sg : Signer) (secret a b value : string) :
  salt_separated secret a b ->
  In sg iter_unsigners ->
  signer_unsign sg secret b (join value (get_signature default_signer secret a value))
  = inl (Some value).
Proof.
  intros Hsep Hin. unfold signer_unsign.
  rewrite rsplit_join by apply b64_safe.
  unfold verify_signature, get_signature. rewrite b64.
  destruct (String.eqb_spec
              (hmac_digest default_signer (derive_key default_signer secret a) value)
              (hmac_digest sg (derive_key sg secret b) value)) as [E|E];
    [|reflexivity].
  exfalso. apply (Hsep sg value Hin). now symmetry.
Qed.

Section Payload.
Hypothesis json : json_roundtrip.
Hypothesis zlib : zlib_roundtrip.

Lemma load_dump_payload (obj : string) :
  load_payload (dump_payload obj) = Return obj.
Proof.
  unfold dump_payload, load_payload.
  destruct (S (String.length (zlib_compress (json_dumps obj)))
            <? String.length (json_dumps obj))%nat.
  - rewrite strip_marker_marked, b64, zlib. now rewrite json.
  - rewrite strip_marker_no_sep by apply b64_safe. rewrite b64. now rewrite json.
Qed.

(** Round trip of the serializer: within [m] seconds of issuance [loads]
    returns what [dumps] was given. *)
Lemma loads_dumps_fresh (secret salt obj token : string) (t0 now : N) (m : Z) :
  dumps secret salt t0 obj = Return token ->
  (t0 <= max_datetime)%N ->
  (t0 <= now)%N ->
  (Z.of_N now - Z.of_N t0 <= m)%Z ->
  loads secret salt now (Some m) token = Return obj.
Proof.
  intros Hd Hrange Hle Hage. unfold dumps in Hd.
  unfold loads, iter_unsigners. cbn [loads_iter].
  rewrite (timestamp_unsign_sign _ _ _ _ _ _ now m Hd).
  destruct (Z.gtb_spec (Z.of_N now - Z.of_N t0) m) as [Hgt|_]; [lia|].
  destruct (Z.ltb_spec (Z.of_N now - Z.of_N t0) 0) as [Hlt|_]; [lia|].
  rewrite (timestamp_to_datetime_in_range t0 Hrange).
  apply load_dump_payload.
Qed.

End Payload.

(** Past the validity window [loads] raises [SignatureExpired], for a
    token issued at a time that is a date. *)
Lemma loads_dumps_expired (secret salt obj token : string) (t0 now : N) (m : Z) :
  dumps secret salt t0 obj = Return token ->
  (t0 <= max_datetime)%N ->
  (Z.of_N now - Z.of_N t0 > m)%Z ->
  loads secret salt now (Some m) token = Raise SignatureExpired.
Proof.
  intros Hd Hrange Hage. unfold dumps in Hd.
  unfold loads, iter_unsigners. cbn [loads_iter].
  rewrite (timestamp_unsign_sign _ _ _ _ _ _ now m Hd).
  unfold raise_expired. rewrite (timestamp_to_datetime_in_range t0 Hrange).
  destruct (Z.gtb_spec (Z.of_N now - Z.of_N t0) m) as [_|Hle]; [reflexivity|lia].
Qed.

(** A token issued past the year 9999 is never accepted and never reported
    as expired: on every path [unsign] converts the issue time to a date,
    and the conversion raises. *)
Lemma loads_dumps_out_of_range (secret salt obj token : string) (t0 now : N) (m : Z) :
  dumps secret salt t0 obj = Return token ->
  (max_datetime < t0)%N ->
  loads secret salt now (Some m) token = Raise DateOutOfRange.
Proof.
  intros Hd Hrange. unfold dumps in Hd.
  unfold loads, iter_unsigners. cbn [loads_iter].
  rewrite (timestamp_unsign_sign _ _ _ _ _ _ now m Hd).
  unfold raise_expired. rewrite (timestamp_to_datetime_out_of_range t0 Hrange).
  destruct (_ >? _)%Z; [reflexivity|]. destruct (_ <? _)%Z; reflexivity.
Qed.

End Laws.

(** [unsign] on a token whose signature the signer rejects. *)
Lemma timestamp_unsign_rejected (sg : Signer) (secret salt token : string)
    (now : N) (max_age : option Z) (p : option string) :
  signer_unsign sg secret salt token = inl p ->
  exists e, timestamp_unsign sg secret salt now max_age token = Raise e
            /\ signature_failure e.
Proof.
  intros H. unfold timestamp_unsign. rewrite H. unfold signature_failure.
  destruct p as [payload|].
  - destruct (rsplit payload) as [[v ts]|]; [|eauto].
    destruct (base64_decode ts) as [b|]; [|eauto].
    destruct (bytes_to_int b) as [t|]; [|eauto].
    destruct (timestamp_to_datetime t); eauto.
  - cbn. eauto.
Qed.

(** The loop of [loads] when every signer rejects the signature: the
    exception of the last signer comes out. *)
Lemma loads_iter_rejected (signers : list Signer) (last : exception)
    (secret salt token : string) (now : N) (max_age : option Z) :
  (forall sg, In sg signers ->
     exists e, timestamp_unsign sg secret salt now max_age token = Raise e
               /\ signature_failure e) ->
  exists e, loads_iter signers last secret salt now max_age token = Raise e
            /\ (signers = [] /\ e = last \/ signature_failure e).
Proof.
  revert last. induction signers as [|sg rest IH]; intros last Hall.
  - exists last. cbn. auto.
  - destruct (Hall sg (or_introl eq_refl)) as [e [He Hf]].
    cbn [loads_iter]. rewrite He.
    destruct (IH e (fun s Hs => Hall s (or_intror Hs))) as [e' [He' Hc]].
    exists e'. split.
    + destruct Hf as [-> | ->]; exact He'.
    + right. destruct Hc as [[_ ->] | Hc]; assumption.
Qed.

(** A token no signer accepts is rejected with a signature failure, never
    with [SignatureExpired], whatever its age. *)
Lemma loads_signature_rejected (secret salt token : string) (now : N)
    (max_age : option Z) :
  signature_checks secret salt token = false ->
  exists e, loads secret salt now max_age token = Raise e /\ signature_failure e.
Proof.
  intros H. unfold loads.
  destruct (loads_iter_rejected iter_unsigners TypeError secret salt token now max_age)
    as [e [He Hc]].
  - intros sg Hin. unfold signature_checks in H.
    destruct (signer_unsign sg secret salt token) as [p|v] eqn:E.
    + eapply timestamp_unsign_rejected; eassumption.
    + exfalso.
      assert (Ht : existsb (fun sg => match signer_unsign sg secret salt token with
                                      | inr _ => true | inl _ => false end)
                     iter_unsigners = true).
      { apply existsb_exists. exists sg. split; [exact Hin|]. now rewrite E. }
      congruence.
  - exists e. split; [exact He|].
    destruct Hc as [[Hnil _] | Hc]; [discriminate Hnil | exact Hc].
Qed.

(** A text without a separator is no signed token. *)
Lemma signature_checks_no_sep (secret salt token : string) :
  no_sep token = true -> signature_checks secret salt token = false.
Proof.
  intros H. unfold signature_checks.
  destruct (existsb _ iter_unsigners) eqn:E; [|reflexivity].
  apply existsb_exists in E. destruct E as [sg [_ Hsg]].
  unfold signer_unsign in Hsg. now rewrite (rsplit_no_sep token H) in Hsg.
Qed.

(** A well signed, unexpired token whose payload does not decode. *)
Lemma loads_bad_payload (secret salt token payload : string) (ts now : N)
    (max_age : option Z) :
  timestamp_unsign default_signer secret salt now max_age token = Return (payload, ts) ->
  load_payload payload = Raise BadPayload ->
  loads secret salt now max_age token = Raise BadPayload.
Proof.
  intros Hu Hp. unfold loads, iter_unsigners. cbn [loads_iter].
  now rewrite Hu.
Qed.

(** A token issued under a salt is rejected under a separated salt. *)
Lemma dumps_other_salt_rejected (secret a b obj token : string) (t0 : N) :
  base64_roundtrip -> base64_urlsafe ->
  salt_separated secret a b ->
  dumps secret a t0 obj = Return token ->
  signature_checks secret b token = false.
Proof.
  intros b64 b64_safe Hsep Hd. unfold dumps, timestamp_sign in Hd.
  destruct (int_to_bytes t0) as [bts|]; [|discriminate].
  assert (Ht : token = join (join (dump_payload obj) (base64_encode bts))
    (get_signature default_signer secret a
       (join (dump_payload obj) (base64_encode bts)))) by congruence.
  subst token. clear Hd.
  unfold signature_checks.
  destruct (existsb _ iter_unsigners) eqn:E; [|reflexivity].
  apply existsb_exists in E. destruct E as [sg [Hin Hsg]].
  now rewrite (signer_unsign_other_salt b64 b64_safe sg secret a b _ Hsep Hin) in Hsg.
Qed.

End Contracts.
End SerializerFacts.

(* ===================================================================== *)
(** * Facts about the user store *)
(* ===================================================================== *)

Module StoreFacts.
Import App.

(** The constraints the table declares: [id] is the primary key, and
    [username] and [email] are [unique=True] (lines 36-38). *)
Definition consistent (rows : list User) : Prop :=
  NoDup (map id rows) /\ NoDup (map username rows) /\ NoDup (map email rows).

Lemma first_by_some (p : User -> bool) (rows : list User) (u : User) :
  first_by p rows = Some u -> In u rows /\ p u = true.
Proof. apply find_some. Qed.

Lemma first_by_none (p : User -> bool) (rows : list User) :
  (forall u, In u rows -> p u = false) -> first_by p rows = None.
Proof.
  induction rows as [|r rows IH]; intros H; [reflexivity|].
  simpl. rewrite (H r (or_introl eq_refl)).
  apply IH. intros u Hu. apply H. now right.
Qed.

Lemma first_by_exists (p : User -> bool) (rows : list User) (u : User) :
  In u rows -> p u = true -> exists v, first_by p rows = Some v.
Proof.
  induction rows as [|r rows IH]; intros Hin Hp; [contradiction|].
  simpl. destruct (p r) eqn:E; [eauto|].
  destruct Hin as [-> | Hin]; [congruence | now apply IH].
Qed.

(** Under a unique key, a lookup by the key of a stored row finds that
    very row. *)
Lemma first_by_key {K : Type} (key : User -> K) (eqb : K -> K -> bool)
    (rows : list User) (u : User) :
  (forall a b, eqb a b = true <-> a = b) ->
  NoDup (map key rows) -> In u rows ->
  first_by (fun r => eqb (key r) (key u)) rows = Some u.
Proof.
  intros Heqb. induction rows as [|r rows IH]; intros Hnd Hin; [contradiction|].
  simpl in *. inversion Hnd as [|k ks Hnotin Hnd']; subst.
  destruct (eqb (key r) (key u)) eqn:E.
  - apply Heqb in E. destruct Hin as [-> | Hin]; [reflexivity|].
    exfalso. apply Hnotin. rewrite E. now apply in_map.
  - destruct Hin as [-> | Hin].
    + assert (eqb (key u) (key u) = true) by now apply Heqb. congruence.
    + now apply IH.
Qed.

Lemma first_by_email (rows : list User) (u : User) :
  consistent rows -> In u rows -> first_by (by_email (email u)) rows = Some u.
Proof.
  intros [_ [_ H]] Hin.
  exact (first_by_key email String.eqb rows u String.eqb_eq H Hin).
Qed.

Lemma first_by_username (rows : list User) (u : User) :
  consistent rows -> In u rows -> first_by (by_username (username u)) rows = Some u.
Proof.
  intros [_ [H _]] Hin.
  exact (first_by_key username String.eqb rows u String.eqb_eq H Hin).
Qed.

Lemma first_by_id (rows : list User) (u : User) :
  consistent rows -> In u rows -> first_by (by_id (id u)) rows = Some u.
Proof.
  intros [H _] Hin.
  exact (first_by_key id Nat.eqb rows u Nat.eqb_eq H Hin).
Qed.

(** Two stored rows with the same primary key are the same row. *)
Lemma same_id_same_row (rows : list User) (a b : User) :
  NoDup (map id rows) -> In a rows -> In b rows -> id a = id b -> a = b.
Proof.
  induction rows as [|r rows IH]; intros Hnd Ha Hb E; [contradiction|].
  simpl in *. inversion Hnd as [|k ks Hnotin Hnd']; subst.
  destruct Ha as [-> | Ha], Hb as [-> | Hb].
  - reflexivity.
  - exfalso. apply Hnotin. rewrite E. now apply in_map.
  - exfalso. apply Hnotin. rewrite <- E. now apply in_map.
  - now apply IH.
Qed.

(** Writing back a loaded row touches that row only: [UPDATE ... WHERE id]
    is a pointwise change of the row that carries the key. *)
Lemma update_row_pointwise (rows : list User) (u : User) (f : User -> User) :
  NoDup (map id rows) -> In u rows -> id (f u) = id u ->
  update_row (f u) rows = map (fun r => if by_id (id u) r then f r else r) rows.
Proof.
  intros Hnd Hin Hid. unfold update_row. apply map_ext_in.
  intros r Hr. rewrite Hid. unfold by_id.
  destruct (Nat.eqb_spec (id r) (id u)) as [E|E]; [|reflexivity].
  now rewrite (same_id_same_row rows r u Hnd Hr Hin E).
Qed.

(** A pointwise change that keeps the three keys keeps the constraints. *)
Lemma consistent_pointwise (rows : list User) (g : User -> User) :
  (forall r, id (g r) = id r /\ username (g r) = username r /\ email (g r) = email r) ->
  consistent rows -> consistent (map g rows).
Proof.
  intros Hg [Hi [Hu He]]. unfold consistent. rewrite !map_map.
  rewrite (map_ext (fun r => id (g r)) id) by (intros r; apply Hg).
  rewrite (map_ext (fun r => username (g r)) username) by (intros r; apply Hg).
  rewrite (map_ext (fun r => email (g r)) email) by (intros r; apply Hg).
  auto.
Qed.

Lemma NoDup_map_filter {K : Type} (key : User -> K) (p : User -> bool)
    (rows : list User) :
  NoDup (map key rows) -> NoDup (map key (filter p rows)).
Proof.
  induction rows as [|r rows IH]; intros Hnd; [constructor|].
  simpl in *. inversion Hnd as [|k ks Hnotin Hnd']; subst.
  destruct (p r); simpl; [|now apply IH].
  constructor; [|now apply IH].
  intros Hin. apply Hnotin. apply in_map_iff in Hin.
  destruct Hin as [x [Hx Hf]]. apply filter_In in Hf.
  apply in_map_iff. exists x. tauto.
Qed.

Lemma consistent_delete (rows : list User) (u : User) :
  consistent rows -> consistent (delete_row u rows).
Proof.
  intros [Hi [Hu He]]. unfold consistent, delete_row.
  repeat split; now apply NoDup_map_filter.
Qed.

(** The key [next_id] hands out is larger than every key in use. *)
Lemma next_id_fresh (rows : list User) (u : User) :
  In u rows -> id u < next_id rows.
Proof.
  unfold next_id. induction rows as [|r rows IH]; intros Hin; [contradiction|].
  simpl. destruct Hin as [-> | Hin]; [lia|].
  specialize (IH Hin). lia.
Qed.

Lemma violates_unique_false (n e : string) (rows : list User) :
  violates_unique n e rows = false ->
  ~ In n (map username rows) /\ ~ In e (map email rows).
Proof.
  unfold violates_unique. intros H.
  split; intros Hin; apply in_map_iff in Hin; destruct Hin as [r [Hr Hin]];
    assert (Ht : existsb (fun r => by_username n r || by_email e r) rows = true).
  1,3: apply existsb_exists; exists r; split; [exact Hin|];
       unfold by_username, by_email; rewrite Hr, String.eqb_refl;
       auto using orb_true_r.
  all: congruence.
Qed.

Lemma NoDup_map_snoc {K : Type} (key : User -> K) (rows : list User) (u : User) :
  NoDup (map key rows) -> ~ In (key u) (map key rows) ->
  NoDup (map key (rows ++ [u])).
Proof.
  intros Hnd Hnotin. rewrite map_app. simpl.
  apply NoDup_app; [exact Hnd | repeat constructor; auto |].
  intros k Hk [<- | []]. now apply Hnotin.
Qed.

Lemma consistent_insert (rows : list User) (u : User) :
  consistent rows -> id u = next_id rows ->
  violates_unique (username u) (email u) rows = false ->
  consistent (rows ++ [u]).
Proof.
  intros [Hi [Hu He]] Hid Hv. apply violates_unique_false in Hv.
  destruct Hv as [Hvu Hve]. unfold consistent.
  repeat split; apply NoDup_map_snoc; auto.
  intros Hin. apply in_map_iff in Hin. destruct Hin as [r [Hr Hin]].
  apply next_id_fresh in Hin. lia.
Qed.

End StoreFacts.

(* ===================================================================== *)
(** * The credential lifecycle *)
(* ===================================================================== *)

Module Lifecycle.
Import Text TextFacts ItsDangerous SerializerFacts App StoreFacts.
Local Open Scope handler_scope.

(** The two purposes of a token and the salt each one signs under (lines
    98 and 129, lines 176 and 191). *)
Inductive Purpose : Type := EmailConfirm | PasswordReset.

Definition salt_of (p : Purpose) : string :=
  match p with
  | EmailConfirm => "email-confirmation"
  | PasswordReset => "password-reset"
  end.

(** How the two [except] clauses of the confirming handlers (lines 137-140
    and 199-204) divide the exceptions of a failed verification. *)
Inductive Failure : Type := Expired | Invalid.

Definition failure_of (e : exception) : Failure :=
  if exception_eqb e SignatureExpired then Expired else Invalid.

(** Unfolds the monadic plumbing of a handler. *)
Ltac run :=
  unfold current_user, load_user, query_first_or_404, query_first,
    commit_update, delete_and_commit, login_user, logout_user, flash,
    draw_salt, bind, ret, raise, lift, gets, modify, try_except;
  cbn beta iota zeta.

Section Claims.
Context {P : Primitives} {L : Platform}.
Variable config : Config.

Lemma bcrypt_hashpw_within (pw salt : string) (w : World) :
  String.length pw <= bcrypt_max_password ->
  bcrypt_hashpw pw salt w = (Return (hashpw pw salt), w).
Proof.
  intros H. unfold bcrypt_hashpw.
  destruct (Nat.ltb_spec bcrypt_max_password (String.length pw)); [lia | reflexivity].
Qed.

Lemma bcrypt_hashpw_too_long (pw salt : string) (w : World) :
  bcrypt_max_password < String.length pw ->
  bcrypt_hashpw pw salt w = (Raise ValueError, w).
Proof.
  intros H. unfold bcrypt_hashpw.
  destruct (Nat.ltb_spec bcrypt_max_password (String.length pw)); [reflexivity | lia].
Qed.

Lemma bcrypt_checkpw_too_long (pw hashed : string) (w : World) :
  bcrypt_max_password < String.length pw ->
  bcrypt_checkpw pw hashed w = (Raise ValueError, w).
Proof.
  intros H. unfold bcrypt_checkpw.
  destruct (Nat.ltb_spec bcrypt_max_password (String.length pw)); [reflexivity | lia].
Qed.

(** [bcrypt.checkpw] reads the world and leaves it alone. *)
Lemma bcrypt_checkpw_pure (pw hashed : string) (w : World) :
  bcrypt_checkpw pw hashed w = (fst (bcrypt_checkpw pw hashed w), w).
Proof.
  unfold bcrypt_checkpw.
  destruct (Nat.ltb bcrypt_max_password (String.length pw)); [reflexivity|].
  destruct (checkpw pw hashed); reflexivity.
Qed.

(** [verify(token, purpose, 3600)] of the token service fails with [f] in
    world [w]. *)
Definition verify_fails (token : string) (p : Purpose) (w : World) (f : Failure) : Prop :=
  exists e, serializer_loads config token (salt_of p) 3600 w = (Raise e, w)
            /\ failure_of e = f.

(** C7. Duplicate-email signup: when some stored user already has the
    submitted e-mail address, Signup flashes "Email already exists."
    (category danger), redirects back to the signup page, inserts no row
    and leaves the store, the session and the outbox as they were. *)
Theorem signup_duplicate_email (req : Request) (w : World) (u : User) :
  validate_on_submit SignupForm req = true ->
  In u (db w) ->
  email u = field "email" (form_data req) ->
  signup config req w
  = (Return (Redirect "signup"),
     with_flashes w (flashes w ++ [("Email already exists.", "danger")])%list)
  /\ db (snd (signup config req w)) = db w.
Proof.
  intros Hv Hin He.
  assert (Hs : signup config req w
               = (Return (Redirect "signup"),
                  with_flashes w (flashes w ++ [("Email already exists.", "danger")])%list)).
  { unfold signup. rewrite Hv. run.
    destruct (first_by_exists (by_email (field "email" (form_data req))) (db w) u Hin)
      as [v Hfound].
    - unfold by_email. rewrite He. apply String.eqb_refl.
    - now rewrite Hfound. }
  split; [exact Hs | now rewrite Hs].
Qed.



(** C4. Confirmation gate: for a stored user and a Signin with that user's
    name and a password that checks against the stored hash, an unconfirmed
    user is flashed "Please confirm your email first." and the session is
    left as it was; a confirmed user gets a session bound to the user's id
    and is redirected to the profile page. *)
Theorem signin_confirmation_gate (req : Request) (w : World) (u : User) :
  validate_on_submit SigninForm req = true ->
  consistent (db w) ->
  In u (db w) ->
  username u = field "username" (form_data req) ->
  bcrypt_checkpw (field "password" (form_data req)) (password u) w
  = (Return true, w) ->
  (is_confirmed u = false ->
     signin req w
     = (Return (Render "signin.html"),
        with_flashes w (flashes w ++ [("Please confirm your email first.", "warning")])%list)
     /\ session_user_id (snd (signin req w)) = session_user_id w)
  /\ (is_confirmed u = true ->
        signin req w
        = (Return (Redirect "profile"),
           with_flashes (with_session w (Some (id u)))
             (flashes w ++ [("Sign in successful!", "success")])%list)
        /\ session_user_id (snd (signin req w)) = Some (id u)).
Proof.
  intros Hv Hc Hin Hname Hpw.
  assert (Hfound : first_by (by_username (field "username" (form_data req))) (db w)
                   = Some u).
  { rewrite <- Hname. now apply first_by_username. }
  split; intros Hconf.
  - assert (Hs : signin req w
       = (Return (Render "signin.html"),
          with_flashes w (flashes w ++ [("Please confirm your email first.", "warning")])%list)).
    { unfold signin. rewrite Hv. run. rewrite Hfound, Hpw, Hconf. reflexivity. }
    split; [exact Hs | now rewrite Hs].
  - assert (Hs : signin req w
       = (Return (Redirect "profile"),
          with_flashes (with_session w (Some (id u)))
            (flashes w ++ [("Sign in successful!", "success")])%list)).
    { unfold signin. rewrite Hv. run. rewrite Hfound, Hpw, Hconf. reflexivity. }
    split; [exact Hs | now rewrite Hs].
Qed.

Lemma generate_token_returns (email_ salt : string) (w : World) :
  (clock w < 2 ^ 64)%N ->
  exists token, generate_token config email_ salt w = (Return token, w).
Proof.
  intros H. unfold generate_token, dumps, timestamp_sign. run.
  destruct (int_to_bytes_fits (clock w) H) as [b ->]. eauto.
Qed.

Lemma generate_token_dumps (email_ salt token : string) (w w' : World) :
  generate_token config email_ salt w = (Return token, w') ->
  dumps (SECRET_KEY config) salt (clock w) email_ = Return token /\ w' = w.
Proof.
  unfold generate_token. run. intros H. split; congruence.
Qed.

Lemma serializer_loads_eq (token salt : string) (m : Z) (w : World) :
  serializer_loads config token salt m w
  = (loads (SECRET_KEY config) salt (clock w) (Some m) token, w).
Proof. reflexivity. Qed.

(** Follows the spec's words (sections 4.2 and 8): within 3600 seconds of
    issuance, verifying the token [issue] produced returns the e-mail,
    whenever that issuance was. *)
Definition spec_token_round_trip (email_ : string) (p : Purpose) (w0 w : World)
  : Prop :=
  (clock w0 <= clock w)%N ->
  (clock w <= clock w0 + 3600)%N ->
  forall token w0',
    generate_token config email_ (salt_of p) w0 = (Return token, w0') ->
    serializer_loads config token (salt_of p) 3600 w = (Return email_, w).

(** C1, as the code has it. Token round trip: for every e-mail text and
    either purpose, a token [generate_token] returned at a clock reading
    that is still a date (at most 9999-12-31T23:59:59Z) is accepted by
    [loads] under the same salt and secret at any clock reading from the
    issuance up to 3600 seconds later, and [loads] returns exactly the
    e-mail the token was issued for; and [generate_token] does return a
    token whenever the clock fits the 64-bit timestamp. *)
Theorem token_round_trip (email_ : string) (p : Purpose) (w0 w : World) :
  base64_roundtrip -> base64_urlsafe -> json_roundtrip -> zlib_roundtrip ->
  (clock w0 <= max_datetime)%N ->
  (clock w0 <= clock w)%N ->
  (clock w <= clock w0 + 3600)%N ->
  (forall token w0',
      generate_token config email_ (salt_of p) w0 = (Return token, w0') ->
      serializer_loads config token (salt_of p) 3600 w = (Return email_, w))
  /\ ((clock w0 < 2 ^ 64)%N ->
      exists token, generate_token config email_ (salt_of p) w0 = (Return token, w0)).
Proof.
  intros b64 b64_safe json zlib Hrange Hle Hfresh. split.
  - intros token w0' Hgen. apply generate_token_dumps in Hgen.
    destruct Hgen as [Hd _]. rewrite serializer_loads_eq. f_equal.
    apply (loads_dumps_fresh b64 b64_safe json zlib _ _ _ _ _ _ _ Hd Hrange Hle). lia.
  - apply generate_token_returns.
Qed.

Lemma load_payload_raises (payload : string) (e : exception) :
  load_payload payload = Raise e -> e = BadPayload.
Proof.
  unfold load_payload. destruct (strip_marker payload) as [d body].
  destruct (base64_decode body) as [j|]; [|congruence].
  destruct (if d then zlib_decompress j else Some j) as [t|]; [|congruence].
  destruct (json_loads t); congruence.
Qed.

Lemma failure_of_signature_failure (e : exception) :
  signature_failure e -> failure_of e = Invalid.
Proof. intros [-> | ->]; reflexivity. Qed.

(** Follows the spec's words (section 4.2): a token presented more than
    3600 seconds after its issuance fails with Expired, whenever that
    issuance was. *)
Definition spec_token_expired (email_ : string) (p : Purpose) (w0 w : World) : Prop :=
  (clock w0 + 3600 < clock w)%N ->
  forall token w0',
    generate_token config email_ (salt_of p) w0 = (Return token, w0') ->
    verify_fails token p w Expired.

(** C2, as the code has it. Failure modes of token verification, for
    either purpose [p] and any world [w] the token is presented in:
    - a token issued under [p], at a clock reading that is still a date,
      more than 3600 seconds before fails with Expired;
    - a token whose signature no signer accepts (tampered, forged or
      without a separator) fails with Invalid;
    - a well signed, unexpired token whose payload does not decode fails
      with Invalid;
    - a token issued under the other purpose fails with Invalid, at any
      age, when the two salts are separated under the secret;
    - a token issued under [p] past the year 9999 fails with Invalid, at
      any age. *)
Theorem token_failure_modes (p : Purpose) (w : World) :
  base64_roundtrip -> base64_urlsafe ->
  (forall email_ w0 w0' token,
      generate_token config email_ (salt_of p) w0 = (Return token, w0') ->
      (clock w0 <= max_datetime)%N ->
      (clock w0 + 3600 < clock w)%N ->
      verify_fails token p w Expired)
  /\ (forall token,
        signature_checks (SECRET_KEY config) (salt_of p) token = false ->
        verify_fails token p w Invalid)
  /\ (forall token payload ts,
        timestamp_unsign default_signer (SECRET_KEY config) (salt_of p) (clock w)
          (Some 3600%Z) token = Return (payload, ts) ->
        (forall obj, load_payload payload <> Return obj) ->
        verify_fails token p w Invalid)
  /\ (forall q email_ w0 w0' token,
        q <> p ->
        salt_separated (SECRET_KEY config) (salt_of q) (salt_of p) ->
        generate_token config email_ (salt_of q) w0 = (Return token, w0') ->
        verify_fails token p w Invalid)
  /\ (forall email_ w0 w0' token,
        generate_token config email_ (salt_of p) w0 = (Return token, w0') ->
        (max_datetime < clock w0)%N ->
        verify_fails token p w Invalid).
Proof.
  intros b64 b64_safe.
  assert (Hrej : forall token,
             signature_checks (SECRET_KEY config) (salt_of p) token = false ->
             verify_fails token p w Invalid).
  { intros token Hsig. unfold verify_fails.
    destruct (loads_signature_rejected (SECRET_KEY config) (salt_of p) token
                (clock w) (Some 3600%Z) Hsig) as [e [He Hf]].
    exists e. rewrite serializer_loads_eq, He.
    split; [reflexivity | now apply failure_of_signature_failure]. }
  split; [|split; [|split; [|split]]].
  - intros email_ w0 w0' token Hgen Hrange Hold. apply generate_token_dumps in Hgen.
    destruct Hgen as [Hd _]. exists SignatureExpired.
    rewrite serializer_loads_eq. split; [|reflexivity]. f_equal.
    apply (loads_dumps_expired b64 b64_safe _ _ _ _ _ _ _ Hd Hrange). lia.
  - exact Hrej.
  - intros token payload ts Hu Hbad. exists BadPayload.
    rewrite serializer_loads_eq. split; [|reflexivity]. f_equal.
    apply (loads_bad_payload _ _ _ payload ts _ _ Hu).
    destruct (load_payload payload) as [obj|e] eqn:E.
    + exfalso. now apply (Hbad obj).
    + now rewrite (load_payload_raises payload e E).
  - intros q email_ w0 w0' token _ Hsep Hgen. apply Hrej.
    apply generate_token_dumps in Hgen. destruct Hgen as [Hd _].
    exact (dumps_other_salt_rejected _ _ _ _ _ _ b64 b64_safe Hsep Hd).
  - intros email_ w0 w0' token Hgen Hrange. apply generate_token_dumps in Hgen.
    destruct Hgen as [Hd _]. exists DateOutOfRange.
    rewrite serializer_loads_eq. split; [|reflexivity]. f_equal.
    exact (loads_dumps_out_of_range b64 b64_safe _ _ _ _ _ _ _ Hd Hrange).
Qed.

(** The message each confirming handler flashes for a failed verification. *)
Definition confirm_email_message (f : Failure) : string :=
  match f with
  | Expired => "Confirmation link expired."
  | Invalid => "Invalid confirmation link."
  end.

Definition reset_password_message (f : Failure) : string :=
  match f with
  | Expired => "Reset link expired."
  | Invalid => "Invalid reset link."
  end.

(** Follows the spec's words (sections 4.3 and 7): the expired and the
    invalid failure of ConfirmEmail give one and the same user-facing
    outcome, message included. *)
Definition spec_failures_collapsed (w : World) (expired invalid : string) : Prop :=
  verify_fails expired EmailConfirm w Expired ->
  verify_fails invalid EmailConfirm w Invalid ->
  flashes (snd (confirm_email config expired w))
  = flashes (snd (confirm_email config invalid w)).

(** C3, as the code has it. When verification of the token fails, both
    confirming handlers redirect to the sign-in page, change nothing but
    the flashed messages, and flash exactly one message of category danger
    whose text tells an expired link from an invalid one. *)
Theorem link_failure_outcome (token : string) (req : Request) (w : World) (f : Failure) :
  (verify_fails token EmailConfirm w f ->
     confirm_email config token w
     = (Return (Redirect "signin"),
        with_flashes w (flashes w ++ [(confirm_email_message f, "danger")])%list))
  /\ (verify_fails token PasswordReset w f ->
        reset_password_confirm config token req w
        = (Return (Redirect "signin"),
           with_flashes w (flashes w ++ [(reset_password_message f, "danger")])%list))
  /\ confirm_email_message Expired <> confirm_email_message Invalid
  /\ reset_password_message Expired <> reset_password_message Invalid.
Proof.
  repeat split; try discriminate.
  - intros [e [He Hf]]. unfold confirm_email. run.
    cbn [salt_of] in He. rewrite He. unfold failure_of in Hf.
    destruct (exception_eqb e SignatureExpired); subst f; reflexivity.
  - intros [e [He Hf]]. unfold reset_password_confirm. run.
    cbn [salt_of] in He. rewrite He. unfold failure_of in Hf.
    destruct (exception_eqb e SignatureExpired); subst f; reflexivity.
Qed.

(** ** How one request can change the table *)

(** A change of a loaded row that the handlers write back: the three keys
    and the creation time stay, and a confirmed row stays confirmed. *)
Definition keeps_identity (f : User -> User) : Prop :=
  forall r, id (f r) = id r /\ username (f r) = username r
            /\ email (f r) = email r /\ created_at (f r) = created_at r
            /\ (is_confirmed r = true -> is_confirmed (f r) = true).

(** The four things a handler does to the table. *)
Inductive db_change (rows : list User) : list User -> Prop :=
| change_none : db_change rows rows
| change_update (u : User) (f : User -> User) :
    In u rows -> keeps_identity f ->
    db_change rows (update_row (f u) rows)
| change_insert (row : User) :
    id row = next_id rows ->
    violates_unique (username row) (email row) rows = false ->
    db_change rows (rows ++ [row])%list
| change_delete (u : User) :
    db_change rows (delete_row u rows).

Lemma keeps_identity_confirm : keeps_identity (fun r => set_is_confirmed r true).
Proof. intros r. cbn. auto. Qed.

Lemma keeps_identity_password (h : string) : keeps_identity (fun r => set_password r h).
Proof. intros r. cbn. auto. Qed.

Ltac crunch :=
  repeat (cbn -[dumps loads Nat.ltb update_row delete_row];
          match goal with
          | |- context [match ?x with _ => _ end] =>
              lazymatch x with
              | context [match _ with _ => _ end] => fail
              | _ => destruct x eqn:?
              end
          end);
  cbn -[dumps loads Nat.ltb update_row delete_row].

Ltac found :=
  match goal with
  | H : first_by _ _ = Some _ |- _ => apply first_by_some in H; destruct H
  end.

Lemma with_login_required_db_change (view : User -> M Response) (w : World) :
  (forall u w0, In u (db w0) -> db_change (db w0) (db (snd (view u w0)))) ->
  db_change (db w) (db (snd (login_required view w))).
Proof.
  intros Hview. unfold login_required. run.
  destruct (session_user_id w) as [i|]; [|constructor].
  destruct (first_by (by_id i) (db w)) as [u|] eqn:E; [|constructor].
  apply first_by_some in E. destruct E as [Hin _]. now apply Hview.
Qed.

(** Every route changes the table in one of the four ways. *)
Lemma dispatch_db_change (c : Call) (w : World) :
  db_change (db w) (db (snd (dispatch config c w))).
Proof.
  destruct c as [|req|token|req| | |req|token req|req|req]; cbn [dispatch].
  - constructor.
  - unfold signup, send_confirmation_email, generate_token, add_and_commit,
      mail_send, bcrypt_hashpw. run.
    crunch; try solve [constructor].
    all: apply change_insert; [reflexivity | assumption].
  - unfold confirm_email. run. rewrite serializer_loads_eq.
    crunch; try solve [constructor].
    found. exact (change_update (db w) u (fun r => set_is_confirmed r true)
                    H keeps_identity_confirm).
  - unfold signin, bcrypt_checkpw. run. crunch; constructor.
  - unfold profile. apply with_login_required_db_change. intros; constructor.
  - unfold logout. apply with_login_required_db_change. intros; constructor.
  - unfold reset_password, generate_token, mail_send. run.
    crunch; constructor.
  - unfold reset_password_confirm, bcrypt_hashpw. run. rewrite serializer_loads_eq.
    crunch; try solve [constructor].
    found. exact (change_update (db w) u
                    (fun r => set_password r
                       (hashpw (field "new_password" (form_data req))
                               (gensalt (salts_drawn w))))
                    H (keeps_identity_password _)).
  - unfold change_password. apply with_login_required_db_change.
    intros u w0 Hin. unfold bcrypt_checkpw, bcrypt_hashpw. run.
    crunch; try solve [constructor].
    exact (change_update (db w0) u
             (fun r => set_password r
                (hashpw (field "new_password" (form_data req))
                        (gensalt (salts_drawn w0))))
             Hin (keeps_identity_password _)).
  - unfold delete_account. apply with_login_required_db_change.
    intros u w0 Hin. run. crunch; constructor.
Qed.

Lemma update_row_kept (rows : list User) (u : User) (f : User -> User) :
  consistent rows -> In u rows -> keeps_identity f ->
  update_row (f u) rows = map (fun r => if by_id (id u) r then f r else r) rows.
Proof.
  intros [Hi _] Hin Hf. apply update_row_pointwise; auto. apply Hf.
Qed.

Lemma db_change_consistent (rows rows' : list User) :
  consistent rows -> db_change rows rows' -> consistent rows'.
Proof.
  intros Hc Hch. destruct Hch as [|u f Hin Hf|row Hid Hv|u].
  - exact Hc.
  - rewrite (update_row_kept rows u f Hc Hin Hf).
    apply consistent_pointwise; [|exact Hc].
    intros r. destruct (by_id (id u) r); [|auto]. destruct (Hf r) as [? [? [? _]]]. auto.
  - now apply consistent_insert.
  - now apply consistent_delete.
Qed.

(** Across one change of the table, a row that is still stored under the
    same key has not lost its confirmation. *)
Lemma db_change_monotone (rows rows' : list User) (u u' : User) :
  consistent rows -> db_change rows rows' ->
  In u rows -> In u' rows' -> id u' = id u ->
  is_confirmed u = true -> is_confirmed u' = true.
Proof.
  intros Hc Hch Hu Hu' Hid Hconf. pose proof Hc as [Hnd _].
  destruct Hch as [|u0 f Hin Hf|row Hrow Hv|u0].
  - now rewrite (same_id_same_row rows u' u Hnd Hu' Hu Hid).
  - rewrite (update_row_kept rows u0 f Hc Hin Hf) in Hu'.
    apply in_map_iff in Hu'. destruct Hu' as [r [Hr Hin']].
    assert (Hrid : id r = id u).
    { rewrite <- Hid, <- Hr. destruct (by_id (id u0) r); [|reflexivity].
      symmetry. apply Hf. }
    rewrite (same_id_same_row rows r u Hnd Hin' Hu Hrid) in Hr.
    rewrite <- Hr. destruct (by_id (id u0) u); [|exact Hconf].
    now apply Hf.
  - apply in_app_or in Hu'. destruct Hu' as [Hu' | [<- | []]].
    + now rewrite (same_id_same_row rows u' u Hnd Hu' Hu Hid).
    + apply next_id_fresh in Hu. lia.
  - unfold delete_row in Hu'. apply filter_In in Hu'. destruct Hu' as [Hu' _].
    now rewrite (same_id_same_row rows u' u Hnd Hu' Hu Hid).
Qed.

Lemma step_db_change (w w' : World) :
  step config w w' -> db_change (db w) (db w').
Proof.
  intros H. destruct H as [c w|dt w|f w|cookie w].
  - apply dispatch_db_change.
  - constructor.
  - constructor.
  - constructor.
Qed.

(** The table constraints hold in every reachable world. *)
Lemma reachable_consistent (w : World) :
  reachable config w -> consistent (db w).
Proof.
  intros H. induction H as [w [Hdb _]|w w' _ IH Hstep].
  - rewrite Hdb. repeat split; constructor.
  - exact (db_change_consistent _ _ IH (step_db_change w w' Hstep)).
Qed.

(** C9. Monotonicity of [is_confirmed]: from every reachable world, no
    request to any route, and no passing of time or change of the mail
    transport, takes a stored user from confirmed to unconfirmed; a user
    still stored under the same id afterwards has either the same
    [is_confirmed] as before or [is_confirmed = true]. *)
Theorem is_confirmed_monotone (w w' : World) (u u' : User) :
  reachable config w ->
  step config w w' ->
  In u (db w) -> In u' (db w') -> id u' = id u ->
  (is_confirmed u = true -> is_confirmed u' = true)
  /\ (is_confirmed u' = is_confirmed u \/ is_confirmed u' = true).
Proof.
  intros Hr Hs Hu Hu' Hid.
  assert (Hm : is_confirmed u = true -> is_confirmed u' = true).
  { exact (db_change_monotone _ _ u u' (reachable_consistent w Hr)
             (step_db_change w w' Hs) Hu Hu' Hid). }
  split; [exact Hm|].
  destruct (is_confirmed u) eqn:E.
  - left. now apply Hm.
  - destruct (is_confirmed u'); [now right | now left].
Qed.

(** C5. ConfirmEmail is idempotent.  With a token that verifies to the
    e-mail of a stored user:
    - if the user is unconfirmed, the handler sets [is_confirmed] of that
      row, and of no other, to true and stores it;
    - if the user is confirmed, the handler flashes "Email already
      confirmed." and leaves the table exactly as it is;
    so a second confirmation against the table the first one left, with any
    token that verifies to the same e-mail, changes nothing. *)
Theorem confirm_email_idempotent (token : string) (w : World) (u : User) :
  consistent (db w) ->
  In u (db w) ->
  serializer_loads config token "email-confirmation" 3600 w = (Return (email u), w) ->
  let w1 := snd (confirm_email config token w) in
  (is_confirmed u = false ->
     confirm_email config token w
     = (Return (Redirect "signin"),
        with_flashes (with_db w (update_row (set_is_confirmed u true) (db w)))
          (flashes w ++ [("Email confirmed!", "success")])%list)
     /\ db w1 = map (fun r => if by_id (id u) r then set_is_confirmed r true else r) (db w)
     /\ In (set_is_confirmed u true) (db w1)
     /\ (forall token2 w2,
           db w2 = db w1 ->
           serializer_loads config token2 "email-confirmation" 3600 w2
           = (Return (email u), w2) ->
           confirm_email config token2 w2
           = (Return (Redirect "signin"),
              with_flashes w2 (flashes w2 ++ [("Email already confirmed.", "info")])%list)
           /\ db (snd (confirm_email config token2 w2)) = db w2))
  /\ (is_confirmed u = true ->
        confirm_email config token w
        = (Return (Redirect "signin"),
           with_flashes w (flashes w ++ [("Email already confirmed.", "info")])%list)
        /\ db w1 = db w).
Proof.
  intros Hc Hin Hload w1.
  assert (Hagain : forall tok v x,
             consistent (db v) -> In x (db v) -> is_confirmed x = true ->
             serializer_loads config tok "email-confirmation" 3600 v
             = (Return (email x), v) ->
             confirm_email config tok v
             = (Return (Redirect "signin"),
                with_flashes v (flashes v ++ [("Email already confirmed.", "info")])%list)).
  { intros tok v x Hcv Hx Hconf Hl. unfold confirm_email. run. rewrite Hl.
    rewrite (first_by_email (db v) x Hcv Hx), Hconf. reflexivity. }
  split; intros Hconf.
  - assert (Hrun : confirm_email config token w
      = (Return (Redirect "signin"),
         with_flashes (with_db w (update_row (set_is_confirmed u true) (db w)))
           (flashes w ++ [("Email confirmed!", "success")])%list)).
    { unfold confirm_email. run. rewrite Hload.
      rewrite (first_by_email (db w) u Hc Hin), Hconf. reflexivity. }
    assert (Hdb : db w1
      = map (fun r => if by_id (id u) r then set_is_confirmed r true else r) (db w)).
    { unfold w1. rewrite Hrun. cbn.
      exact (update_row_kept (db w) u (fun r => set_is_confirmed r true) Hc Hin
               keeps_identity_confirm). }
    assert (Hin1 : In (set_is_confirmed u true) (db w1)).
    { rewrite Hdb. apply in_map_iff. exists u. split; [|exact Hin].
      unfold by_id. now rewrite Nat.eqb_refl. }
    assert (Hc1 : consistent (db w1)).
    { unfold w1. apply (db_change_consistent (db w)); [exact Hc|].
      exact (dispatch_db_change (CallConfirmEmail token) w). }
    split; [exact Hrun|]. split; [exact Hdb|]. split; [exact Hin1|].
    intros token2 w2 Hdb2 Hload2.
    assert (Hrun2 : confirm_email config token2 w2
      = (Return (Redirect "signin"),
         with_flashes w2 (flashes w2 ++ [("Email already confirmed.", "info")])%list)).
    { apply (Hagain token2 w2 (set_is_confirmed u true)).
      - now rewrite Hdb2.
      - now rewrite Hdb2.
      - reflexivity.
      - exact Hload2. }
    split; [exact Hrun2 | now rewrite Hrun2].
  - pose proof (Hagain token w u Hc Hin Hconf Hload) as Hrun.
    split; [exact Hrun | unfold w1; now rewrite Hrun].
Qed.

Lemma violates_unique_none (n e : string) (rows : list User) :
  (forall u, In u rows -> username u <> n /\ email u <> e) ->
  violates_unique n e rows = false.
Proof.
  intros H. unfold violates_unique.
  destruct (existsb _ rows) eqn:E; [|reflexivity].
  apply existsb_exists in E. destruct E as [r [Hr Hp]].
  destruct (H r Hr) as [Hn He]. unfold by_username, by_email in Hp.
  apply orb_prop in Hp. destruct Hp as [Hp | Hp]; apply String.eqb_eq in Hp;
    contradiction.
Qed.

(** Follows the spec's words (sections 4.3 and 7): a failed confirmation
    mail does not make Signup fail; the view returns a response and flashes
    a warning of its own. *)
Definition spec_mail_failure_surfaced (req : Request) (w : World) : Prop :=
  exists response,
    fst (signup config req w) = Return response
    /\ flashes (snd (signup config req w)) <> flashes w.

(** C8, as the code has it. When the transport refuses the confirmation
    mail of a Signup that got as far as sending it (the form validates, the
    password is within bcrypt's 72 bytes, the unique constraints hold), the
    new row stays stored (nothing is rolled back), and the exception of
    [mail.send] leaves the view: no response is returned, nothing is
    flashed, nothing is sent. *)
Theorem signup_mail_failure (req : Request) (w : World) :
  validate_on_submit SignupForm req = true ->
  String.length (field "password" (form_data req)) <= bcrypt_max_password ->
  (forall u, In u (db w) ->
     username u <> field "username" (form_data req)
     /\ email u <> field "email" (form_data req)) ->
  (clock w < 2 ^ 64)%N ->
  (forall m, recipients m = [field "email" (form_data req)] ->
     mail_transport w m = false) ->
  let row := {| id := next_id (db w);
                username := field "username" (form_data req);
                email := field "email" (form_data req);
                password := hashpw (field "password" (form_data req))
                                   (gensalt (salts_drawn w));
                created_at := clock w;
                is_confirmed := false |} in
  let w' := snd (signup config req w) in
  fst (signup config req w) = Raise SMTPException
  /\ db w' = (db w ++ [row])%list
  /\ flashes w' = flashes w
  /\ outbox w' = outbox w
  /\ session_user_id w' = session_user_id w.
Proof.
  intros Hv Hlen Hfree Hclock Hmail row w'.
  assert (Hnone : first_by (by_email (field "email" (form_data req))) (db w) = None).
  { apply first_by_none. intros u Hu. unfold by_email. apply String.eqb_neq.
    now apply Hfree. }
  assert (Hrun : signup config req w
                 = (Raise SMTPException,
                    with_db (with_salts_drawn w (S (salts_drawn w)))
                      (db w ++ [row])%list)).
  { destruct (generate_token_returns
                (field "email" (form_data req)) "email-confirmation" w Hclock)
      as [token Htoken].
    apply generate_token_dumps in Htoken. destruct Htoken as [Hd _].
    pose proof (violates_unique_none _ _ _ Hfree) as Hvu.
    unfold violates_unique in Hvu.
    unfold signup. rewrite Hv. run. rewrite Hnone.
    rewrite bcrypt_hashpw_within by exact Hlen.
    unfold add_and_commit, send_confirmation_email, generate_token, mail_send.
    run. cbn -[dumps]. rewrite Hvu. cbn -[dumps]. rewrite Hd.
    rewrite Hmail by reflexivity. reflexivity. }
  unfold w'. rewrite Hrun. cbn. auto.
Qed.

(** C10. Frame of the password updates. A ConfirmPasswordReset whose token
    verifies to the e-mail of a stored user, and a ChangePassword of the
    signed-in user whose old password checks, succeed when the new password
    is within bcrypt's 72 bytes, and then the row stored under the user's
    id carries the new hash as [password] and the id, username, e-mail,
    creation time and [is_confirmed] it had; every other row is as before
    and nothing else in the world changes but the flashed message and the
    salt counter.  The reset goes through for a user who is not confirmed
    and leaves [is_confirmed] as it was.  With a longer new password
    neither operation succeeds and the table is untouched: the reset is
    answered "Invalid reset link." and ChangePassword raises. *)
Theorem password_update_frame (token : string) (req : Request) (w : World) (u : User) :
  consistent (db w) ->
  In u (db w) ->
  let new_password := field "new_password" (form_data req) in
  let h := hashpw new_password (gensalt (salts_drawn w)) in
  let updated := map (fun r => if by_id (id u) r then set_password r h else r) (db w) in
  let salted := with_salts_drawn w (S (salts_drawn w)) in
  (serializer_loads config token "password-reset" 3600 w = (Return (email u), w) ->
   validate_on_submit ResetPasswordConfirmForm req = true ->
   (String.length new_password <= bcrypt_max_password ->
      reset_password_confirm config token req w
      = (Return (Redirect "signin"),
         with_flashes (with_db salted updated)
           (flashes w ++ [("Password reset successful!", "success")])%list))
   /\ (bcrypt_max_password < String.length new_password ->
       reset_password_confirm config token req w
       = (Return (Redirect "signin"),
          with_flashes salted (flashes w ++ [("Invalid reset link.", "danger")])%list)))
  /\ (session_user_id w = Some (id u) ->
      validate_on_submit ChangePasswordForm req = true ->
      bcrypt_checkpw (field "old_password" (form_data req)) (password u) w
      = (Return true, w) ->
      (String.length new_password <= bcrypt_max_password ->
         change_password req w
         = (Return (Redirect "profile"),
            with_flashes (with_db salted updated)
              (flashes w ++ [("Password changed successfully!", "success")])%list))
      /\ (bcrypt_max_password < String.length new_password ->
          change_password req w = (Raise ValueError, salted)))
  /\ (exists u',
        first_by (by_id (id u)) updated = Some u'
        /\ password u' = h /\ id u' = id u /\ username u' = username u
        /\ email u' = email u /\ created_at u' = created_at u
        /\ is_confirmed u' = is_confirmed u)
  /\ (forall r', In r' updated -> id r' <> id u -> In r' (db w))
  /\ (forall r, In r (db w) -> id r <> id u -> In r updated)
  /\ List.length updated = List.length (db w).
Proof.
  intros Hc Hin new_password h updated salted.
  assert (Hupd : update_row (set_password u h) (db w) = updated).
  { exact (update_row_kept (db w) u (fun r => set_password r h) Hc Hin
             (keeps_identity_password h)). }
  assert (Hmem : In (set_password u h) updated).
  { unfold updated. apply in_map_iff. exists u. split; [|exact Hin].
    unfold by_id. now rewrite Nat.eqb_refl. }
  assert (Hcu : consistent updated).
  { unfold updated. apply consistent_pointwise; [|exact Hc].
    intros r. destruct (by_id (id u) r); cbn; auto. }
  split; [|split; [|split; [|split; [|split]]]].
  - intros Hload Hv. split; intros Hlen.
    + unfold reset_password_confirm. run. rewrite Hload.
      rewrite (first_by_email (db w) u Hc Hin), Hv.
      rewrite bcrypt_hashpw_within by exact Hlen.
      cbn [db with_salts_drawn]. fold new_password h. rewrite Hupd. reflexivity.
    + unfold reset_password_confirm. run. rewrite Hload.
      rewrite (first_by_email (db w) u Hc Hin), Hv.
      rewrite bcrypt_hashpw_too_long by exact Hlen. reflexivity.
  - intros Hsess Hv Hpw. split; intros Hlen.
    + unfold change_password, login_required. run. rewrite Hsess.
      rewrite (first_by_id (db w) u Hc Hin), Hv, Hpw.
      rewrite bcrypt_hashpw_within by exact Hlen.
      cbn [db with_salts_drawn]. fold new_password h. rewrite Hupd. reflexivity.
    + unfold change_password, login_required. run. rewrite Hsess.
      rewrite (first_by_id (db w) u Hc Hin), Hv, Hpw.
      rewrite bcrypt_hashpw_too_long by exact Hlen. reflexivity.
  - exists (set_password u h). split.
    + exact (first_by_id updated (set_password u h) Hcu Hmem).
    + cbn. repeat split.
  - intros r' Hr' Hne. unfold updated in Hr'. apply in_map_iff in Hr'.
    destruct Hr' as [r [Hr Hrin]]. unfold by_id in Hr.
    destruct (Nat.eqb_spec (id r) (id u)) as [E|E]; subst r'; [|exact Hrin].
    exfalso. apply Hne. cbn. exact E.
  - intros r Hr Hne. unfold updated. apply in_map_iff. exists r. split; [|exact Hr].
    unfold by_id. destruct (Nat.eqb_spec (id r) (id u)) as [E|E]; [contradiction|].
    reflexivity.
  - unfold updated. apply length_map.
Qed.

End Claims.

(** ** The sample instance satisfies the contracts *)

Import Sample.

Lemma sample_base64_roundtrip : base64_roundtrip.
Proof.
  intros s. cbn [base64_decode base64_encode sample_primitives].
  induction s as [|c r IH]; [reflexivity|].
  destruct c as [b0 b1 b2 b3 b4 b5 b6 b7].
  cbn [nibbles_encode nibbles_decode nibble]. rewrite IH. reflexivity.
Qed.

Lemma sample_base64_urlsafe : base64_urlsafe.
Proof.
  intros s. cbn [base64_encode sample_primitives].
  induction s as [|c r IH]; [reflexivity|].
  destruct c as [b0 b1 b2 b3 b4 b5 b6 b7].
  cbn [nibbles_encode no_sep]. rewrite IH.
  destruct b0, b1, b2, b3, b4, b5, b6, b7; reflexivity.
Qed.

Lemma sample_json_roundtrip : json_roundtrip.
Proof. intros s. reflexivity. Qed.

Lemma sample_zlib_roundtrip : zlib_roundtrip.
Proof. intros s. reflexivity. Qed.

Lemma sample_salt_separated (secret : string) (p q : Purpose) :
  p <> q -> salt_separated secret (salt_of p) (salt_of q).
Proof.
  intros Hpq sg value Hin.
  destruct Hin as [<- | [<- | []]]; destruct p, q; try contradiction;
    cbn; discriminate.
Qed.

Lemma sample_consistent_after_signup : consistent (db after_signup).
Proof.
  repeat split; cbn; (constructor; [intros [] | constructor]).
Qed.

Lemma sample_reachable_after_confirm : reachable sample_config after_confirm.
Proof.
  apply (reachable_step sample_config (with_clock after_signup 1010)).
  - apply (reachable_step sample_config after_signup).
    + apply (reachable_step sample_config (fresh_world 1000 true)).
      * apply reachable_initial. split; reflexivity.
      * exact (step_call sample_config (CallSignup alice_signup) (fresh_world 1000 true)).
    + exact (step_tick sample_config 10 after_signup).
  - exact (step_call sample_config (CallConfirmEmail alice_token)
             (with_clock after_signup 1010)).
Qed.

(** ** The theorems at work on the sample instance *)

(** C1 fails on the code: a token issued in the first second past the year
    9999 is refused in that very second. *)
Lemma round_trip_fails_past_year_9999 :
  ~ spec_token_round_trip sample_config "alice@x.com" EmailConfirm late_world late_world.
Proof.
  intros H.
  assert (Hissued : generate_token sample_config "alice@x.com"
                      (salt_of EmailConfirm) late_world
                    = (Return late_token, late_world)) by reflexivity.
  assert (Hle : (clock late_world <= clock late_world)%N) by apply N.le_refl.
  assert (Hfresh : (clock late_world <= clock late_world + 3600)%N)
    by (apply N.leb_le; reflexivity).
  specialize (H Hle Hfresh late_token late_world Hissued).
  vm_compute in H. discriminate.
Qed.

(** C1 as amended, on alice's confirmation token, presented ten seconds
    after it was issued. *)
Lemma token_round_trip_witness :
  serializer_loads sample_config alice_token "email-confirmation" 3600
    (with_clock after_signup 1010)
  = (Return "alice@x.com", with_clock after_signup 1010).
Proof.
  refine (proj1 (token_round_trip sample_config "alice@x.com" EmailConfirm
                   (fresh_world 1000 true) (with_clock after_signup 1010)
                   sample_base64_roundtrip sample_base64_urlsafe
                   sample_json_roundtrip sample_zlib_roundtrip _ _ _)
                alice_token (fresh_world 1000 true) _).
  - apply N.leb_le. reflexivity.
  - cbn. lia.
  - cbn. lia.
  - reflexivity.
Defined.

(** C2 fails on the code: a token issued in the first second past the year
    9999 and presented 4001 seconds later is not answered Expired. *)
Lemma expiry_fails_past_year_9999 :
  ~ spec_token_expired sample_config "alice@x.com" EmailConfirm late_world
      (fresh_world (year_10000 + 4001) true).
Proof.
  intros H.
  assert (Hissued : generate_token sample_config "alice@x.com"
                      (salt_of EmailConfirm) late_world
                    = (Return late_token, late_world)) by reflexivity.
  assert (Hold : (clock late_world + 3600 < clock (fresh_world (year_10000 + 4001) true))%N)
    by (apply N.ltb_lt; reflexivity).
  destruct (H Hold late_token late_world Hissued) as [e [He Hf]].
  assert (Hrun : serializer_loads sample_config late_token (salt_of EmailConfirm) 3600
                   (fresh_world (year_10000 + 4001) true)
                 = (Raise DateOutOfRange, fresh_world (year_10000 + 4001) true))
    by reflexivity.
  rewrite Hrun in He. assert (E : e = DateOutOfRange) by congruence.
  subst e. discriminate Hf.
Qed.

(** C2 as amended, on alice's tokens an hour and more after issuance: her
    confirmation token has expired, and her reset token is invalid as a
    confirmation token. *)
Lemma token_failure_modes_witness :
  verify_fails sample_config alice_token EmailConfirm hour_later Expired
  /\ verify_fails sample_config alice_reset_token EmailConfirm hour_later Invalid.
Proof.
  destruct (token_failure_modes sample_config EmailConfirm hour_later
              sample_base64_roundtrip sample_base64_urlsafe)
    as [Hexpired [_ [_ [Hother _]]]].
  split.
  - apply (Hexpired "alice@x.com" (fresh_world 1000 true) (fresh_world 1000 true)).
    + reflexivity.
    + apply N.leb_le. reflexivity.
    + cbn. lia.
  - apply (Hother PasswordReset "alice@x.com" (fresh_world 1000 true)
             (fresh_world 1000 true)).
    + discriminate.
    + apply sample_salt_separated. discriminate.
    + reflexivity.
Defined.

(** C3 fails on the code: alice's expired confirmation link and a forged
    one are answered with different messages. *)
Lemma failures_not_collapsed :
  ~ spec_failures_collapsed sample_config hour_later alice_token "forged".
Proof.
  intros H. unfold spec_failures_collapsed in H.
  assert (He : verify_fails sample_config alice_token EmailConfirm hour_later Expired).
  { exists SignatureExpired. split; reflexivity. }
  assert (Hi : verify_fails sample_config "forged" EmailConfirm hour_later Invalid).
  { exists BadSignature. split; reflexivity. }
  specialize (H He Hi). vm_compute in H. discriminate.
Qed.

(** C3 as amended, on alice's expired confirmation link. *)
Lemma link_failure_outcome_witness :
  confirm_email sample_config alice_token hour_later
  = (Return (Redirect "signin"),
     with_flashes hour_later
       (flashes hour_later ++ [("Confirmation link expired.", "danger")])%list).
Proof.
  apply (proj1 (link_failure_outcome sample_config alice_token alice_new_password
                  hour_later Expired)).
  exists SignatureExpired. split; reflexivity.
Defined.

(** C4 on alice before and after she confirmed her address. *)
Lemma signin_confirmation_gate_witness :
  session_user_id (snd (signin (alice_signin "pw1") after_signup)) = None
  /\ session_user_id (snd (signin (alice_signin "pw1") after_confirm)) = Some 1.
Proof.
  split.
  - refine (proj2 (proj1 (signin_confirmation_gate (alice_signin "pw1")
                            after_signup alice_row _ _ _ _ _) _)).
    + reflexivity.
    + exact sample_consistent_after_signup.
    + left. reflexivity.
    + reflexivity.
    + reflexivity.
    + reflexivity.
  - refine (proj2 (proj2 (signin_confirmation_gate (alice_signin "pw1")
                            after_confirm (set_is_confirmed alice_row true)
                            _ _ _ _ _) _)).
    + reflexivity.
    + exact (reachable_consistent sample_config after_confirm
               sample_reachable_after_confirm).
    + left. reflexivity.
    + reflexivity.
    + reflexivity.
    + reflexivity.
Defined.

(** C5 on alice: her first confirmation sets the flag, her second one, a
    minute later with the same link, changes nothing. *)
Lemma confirm_email_idempotent_witness :
  db after_confirm = [set_is_confirmed alice_row true]
  /\ db (snd (confirm_email sample_config alice_token (with_clock after_confirm 1070)))
     = db after_confirm.
Proof.
  destruct (confirm_email_idempotent sample_config alice_token
              (with_clock after_signup 1010) alice_row)
    as [Hfirst _].
  - exact sample_consistent_after_signup.
  - left. reflexivity.
  - reflexivity.
  - destruct Hfirst as [_ [Hdb [_ Hagain]]]; [reflexivity|].
    split; [exact Hdb|].
    apply (Hagain alice_token (with_clock after_confirm 1070)); reflexivity.
Defined.



(** C7 on a second signup with alice's address. *)
Lemma signup_duplicate_email_witness :
  db (snd (signup sample_config alice_signup after_signup)) = db after_signup.
Proof.
  refine (proj2 (signup_duplicate_email sample_config alice_signup after_signup
                   alice_row _ _ _)).
  - reflexivity.
  - left. reflexivity.
  - reflexivity.
Defined.

(** C8 fails on the code: with the mail transport down, alice's signup
    returns no response and flashes nothing. *)
Lemma mail_failure_not_surfaced :
  ~ spec_mail_failure_surfaced sample_config alice_signup (fresh_world 1000 false).
Proof.
  intros [response [H _]]. vm_compute in H. discriminate.
Qed.

(** C8 as amended, on the same signup. *)
Lemma signup_mail_failure_witness :
  fst (signup sample_config alice_signup (fresh_world 1000 false)) = Raise SMTPException
  /\ db (snd (signup sample_config alice_signup (fresh_world 1000 false))) = [alice_row].
Proof.
  destruct (signup_mail_failure sample_config alice_signup (fresh_world 1000 false))
    as [Hraise [Hdb _]].
  - reflexivity.
  - apply Nat.leb_le. reflexivity.
  - intros u [].
  - apply N.ltb_lt. reflexivity.
  - reflexivity.
  - split; [exact Hraise | exact Hdb].
Defined.

(** C9 on confirmed alice resetting her password: the row stored under her
    id afterwards is still confirmed. *)
Lemma is_confirmed_monotone_witness :
  let w' := snd (reset_password_confirm sample_config alice_reset_token
                   alice_new_password after_confirm) in
  let alice' := set_password (set_is_confirmed alice_row true) "$2b$pw2" in
  In alice' (db w') /\ is_confirmed alice' = true.
Proof.
  intros w' alice'.
  assert (Hin : In alice' (db w')) by (left; reflexivity).
  split; [exact Hin|].
  refine (proj1 (is_confirmed_monotone sample_config after_confirm w'
                   (set_is_confirmed alice_row true) alice'
                   sample_reachable_after_confirm
                   (step_call sample_config
                      (CallResetPasswordConfirm alice_reset_token alice_new_password)
                      after_confirm)
                   _ Hin eq_refl) eq_refl).
  left. reflexivity.
Defined.

(** C10 on unconfirmed alice resetting her password: the reset goes
    through, the stored hash is the new one and she is still unconfirmed. *)
Lemma password_update_frame_witness :
  db (snd (reset_password_confirm sample_config alice_reset_token alice_new_password
             (with_clock after_signup 1010)))
  = [{| id := 1; username := "alice"; email := "alice@x.com";
        password := "$2b$pw2"; created_at := 1000; is_confirmed := false |}].
Proof.
  destruct (password_update_frame sample_config alice_reset_token alice_new_password
              (with_clock after_signup 1010) alice_row)
    as [Hreset _].
  - exact sample_consistent_after_signup.
  - left. reflexivity.
  - destruct Hreset as [Hok _].
    + reflexivity.
    + reflexivity.
    + rewrite Hok by (apply Nat.leb_le; reflexivity). reflexivity.
Defined.

(** The end-to-end scenario of the specification: alice signs up, confirms,
    signs in and out, asks for a reset link and sets a new password; then
    the old password is refused and the new one opens a session. *)
Example scenario_alice :
  map body (outbox after_reset)
  = ["Please confirm your email: http://localhost/confirm_email/" ++ alice_token;
     "Reset your password here: http://localhost/reset_password_confirm/"
       ++ alice_reset_token]
  /\ db after_reset
     = [set_password (set_is_confirmed alice_row true) "$2b$pw2"]
  /\ fst (signin (alice_signin "pw1") after_reset) = Return (Render "signin.html")
  /\ session_user_id (snd (signin (alice_signin "pw1") after_reset)) = None
  /\ fst (signin (alice_signin "pw2") after_reset) = Return (Redirect "profile")
  /\ session_user_id (snd (signin (alice_signin "pw2") after_reset)) = Some 1.
Proof. repeat split. Qed.

End Lifecycle.

(* ===================================================================== *)
(** * The routes beyond the credential lifecycle *)
(* ===================================================================== *)

(** The rest of [app.py]: what a successful signup stores and mails, how
    the handlers answer requests that do not validate or that come without
    a session, what the reset and delete routes do to the table, and which
    routes touch the session at all. *)
Module Routes.
Import Text TextFacts ItsDangerous SerializerFacts App StoreFacts Lifecycle.
Local Open Scope handler_scope.

(** The row [signup] stores for a request in world [w] (lines 116-119). *)
Definition signup_row {L : Platform} (req : Request) (w : World) : User :=
  {| id := next_id (db w);
     username := field "username" (form_data req);
     email := field "email" (form_data req);
     password := hashpw (field "password" (form_data req)) (gensalt (salts_drawn w));
     created_at := clock w;
     is_confirmed := false |}.

(** The message of [send_confirmation_email] (lines 100-101) and the one of
    [reset_password] (lines 178-179) for a token. *)
Definition confirmation_mail {L : Platform} (config : Config) (to token : string)
  : Message :=
  {| subject := "Email Confirmation";
     recipients := [to];
     sender := MAIL_USERNAME config;
     body := "Please confirm your email: " ++ url_for_external "confirm_email" token |}.

Definition reset_mail {L : Platform} (config : Config) (to token : string)
  : Message :=
  {| subject := "Password Reset Request";
     recipients := [to];
     sender := MAIL_USERNAME config;
     body := "Reset your password here: "
             ++ url_for_external "reset_password_confirm" token |}.

(** The contract of bcrypt: a password it can hash checks against its own
    hash. *)
Definition bcrypt_checks {L : Platform} : Prop :=
  forall pw n, String.length pw <= bcrypt_max_password ->
               checkpw pw (hashpw pw (gensalt n)) = Some true.

(** Which routes a request can address. *)
Definition opens_session (c : Call) : bool :=
  match c with CallSignin _ => true | _ => false end.

Definition closes_session (c : Call) : bool :=
  match c with CallLogout | CallDeleteAccount _ => true | _ => false end.

Definition sends_mail (c : Call) : bool :=
  match c with CallSignup _ | CallResetPassword _ => true | _ => false end.

(** Splits on the innermost scrutinee of the goal, keeping the calls into
    the token service folded. *)
Ltac cases :=
  repeat (cbn -[dumps loads Nat.ltb update_row delete_row];
          match goal with
          | |- context [match ?x with _ => _ end] =>
              lazymatch x with
              | context [match _ with _ => _ end] => fail
              | _ => destruct x eqn:?
              end
          end);
  cbn -[dumps loads Nat.ltb update_row delete_row].

Lemma first_by_snoc (p : User -> bool) (rows : list User) (row : User) :
  (forall u, In u rows -> p u = false) -> p row = true ->
  first_by p (rows ++ [row])%list = Some row.
Proof.
  intros Hnone Hp. induction rows as [|r rows IH]; cbn.
  - now rewrite Hp.
  - rewrite (Hnone r (or_introl eq_refl)). apply IH.
    intros u Hu. apply Hnone. now right.
Qed.

Lemma update_row_snoc (rows : list User) (row row' : User) :
  id row' = next_id rows ->
  update_row row' (rows ++ [row])%list
  = (rows ++ [if by_id (id row') row then row' else row])%list.
Proof.
  intros Hid. unfold update_row. rewrite map_app. cbn. f_equal.
  rewrite <- (map_id rows) at 2. apply map_ext_in. intros r Hr.
  unfold by_id. destruct (Nat.eqb_spec (id r) (id row')) as [E|E]; [|reflexivity].
  apply next_id_fresh in Hr. lia.
Qed.

Lemma DataRequired_empty {L : Platform} : DataRequired EmptyString = false.
Proof. reflexivity. Qed.

Section Properties.
Context {P : Primitives} {L : Platform}.
Variable config : Config.

(** ** Signup *)

Lemma signup_run (req : Request) (w : World) (token : string) :
  validate_on_submit SignupForm req = true ->
  String.length (field "password" (form_data req)) <= bcrypt_max_password ->
  (forall u, In u (db w) ->
     username u <> field "username" (form_data req)
     /\ email u <> field "email" (form_data req)) ->
  generate_token config (field "email" (form_data req)) "email-confirmation" w
  = (Return token, w) ->
  mail_transport w (confirmation_mail config (field "email" (form_data req)) token)
  = true ->
  signup config req w
  = (Return (Redirect "signin"),
     with_flashes
       (with_outbox
          (with_db (with_salts_drawn w (S (salts_drawn w)))
             (db w ++ [signup_row req w])%list)
          (outbox w
           ++ [confirmation_mail config (field "email" (form_data req)) token])%list)
       (flashes w
        ++ [("Account created! Please check your email to confirm.", "success")])%list).
Proof.
  intros Hv Hlen Hfree Htoken Hmail.
  assert (Hnone : first_by (by_email (field "email" (form_data req))) (db w) = None).
  { apply first_by_none. intros u Hu. unfold by_email. apply String.eqb_neq.
    now apply Hfree. }
  apply generate_token_dumps in Htoken. destruct Htoken as [Hd _].
  pose proof (violates_unique_none _ _ _ Hfree) as Hvu.
  unfold violates_unique in Hvu. unfold confirmation_mail in Hmail.
  cbn in Hmail.
  unfold signup. rewrite Hv. run. rewrite Hnone.
  rewrite (bcrypt_hashpw_within _ _ _ Hlen).
  unfold add_and_commit, send_confirmation_email, generate_token, mail_send.
  run. cbn -[dumps]. rewrite Hvu. cbn -[dumps]. rewrite Hd.
  cbn -[dumps]. rewrite Hmail. reflexivity.
Qed.

(** X1. A Signup that validates, whose password is within bcrypt's 72
    bytes and whose e-mail and username are not taken,
    stores exactly one new row (fresh id, hashed password, unconfirmed),
    sends exactly one mail to the submitted address whose link carries the
    token [generate_token] issued, flashes the success message and leaves
    the session alone. *)
Theorem signup_creates_account (req : Request) (w : World) :
  validate_on_submit SignupForm req = true ->
  String.length (field "password" (form_data req)) <= bcrypt_max_password ->
  (forall u, In u (db w) ->
     username u <> field "username" (form_data req)
     /\ email u <> field "email" (form_data req)) ->
  (clock w < 2 ^ 64)%N ->
  (forall m, recipients m = [field "email" (form_data req)] ->
     mail_transport w m = true) ->
  exists token,
    generate_token config (field "email" (form_data req)) "email-confirmation" w
    = (Return token, w)
    /\ fst (signup config req w) = Return (Redirect "signin")
    /\ db (snd (signup config req w)) = (db w ++ [signup_row req w])%list
    /\ (forall u, In u (db w) -> id u <> id (signup_row req w))
    /\ outbox (snd (signup config req w))
       = (outbox w
          ++ [confirmation_mail config (field "email" (form_data req)) token])%list
    /\ session_user_id (snd (signup config req w)) = session_user_id w.
Proof.
  intros Hv Hlen Hfree Hclock Hmail.
  destruct (generate_token_returns config (field "email" (form_data req))
              "email-confirmation" w Hclock) as [token Htoken].
  exists token. split; [exact Htoken|].
  rewrite (signup_run req w token Hv Hlen Hfree Htoken) by (apply Hmail; reflexivity).
  cbn. repeat split.
  intros u Hu E. apply next_id_fresh in Hu. lia.
Qed.

(** X2. Signup composed with ConfirmEmail: the token mailed by a successful
    Signup (password within bcrypt's 72 bytes, clock still a date),
    presented within 3600 seconds against the table the Signup left,
    confirms exactly the new row. *)
Theorem signup_then_confirm (req : Request) (w w2 : World) (token : string) :
  base64_roundtrip -> base64_urlsafe -> json_roundtrip -> zlib_roundtrip ->
  validate_on_submit SignupForm req = true ->
  String.length (field "password" (form_data req)) <= bcrypt_max_password ->
  (forall u, In u (db w) ->
     username u <> field "username" (form_data req)
     /\ email u <> field "email" (form_data req)) ->
  generate_token config (field "email" (form_data req)) "email-confirmation" w
  = (Return token, w) ->
  mail_transport w (confirmation_mail config (field "email" (form_data req)) token)
  = true ->
  db w2 = db (snd (signup config req w)) ->
  (clock w <= max_datetime)%N ->
  (clock w <= clock w2)%N ->
  (clock w2 <= clock w + 3600)%N ->
  In (confirmation_mail config (field "email" (form_data req)) token)
     (outbox (snd (signup config req w)))
  /\ confirm_email config token w2
     = (Return (Redirect "signin"),
        with_flashes
          (with_db w2 (db w ++ [set_is_confirmed (signup_row req w) true])%list)
          (flashes w2 ++ [("Email confirmed!", "success")])%list).
Proof.
  intros b64 b64_safe json zlib Hv Hlen Hfree Htoken Hmail Hdb Hrange Hle Hfresh.
  rewrite (signup_run req w token Hv Hlen Hfree Htoken Hmail) in *. cbn in Hdb.
  split.
  - cbn. apply in_or_app. right. now left.
  - assert (Hload : serializer_loads config token "email-confirmation" 3600 w2
                    = (Return (field "email" (form_data req)), w2)).
    { rewrite serializer_loads_eq. f_equal.
      apply generate_token_dumps in Htoken. destruct Htoken as [Hd _].
      apply (loads_dumps_fresh b64 b64_safe json zlib _ _ _ _ _ _ _ Hd Hrange Hle).
      lia. }
    unfold confirm_email. run. rewrite Hload, Hdb.
    rewrite (first_by_snoc _ (db w) (signup_row req w)).
    + cbn [signup_row is_confirmed negb]. cbn beta iota.
      rewrite Hdb, update_row_snoc by reflexivity.
      unfold by_id. cbn [set_is_confirmed id signup_row].
      rewrite Nat.eqb_refl. reflexivity.
    + intros u Hu. unfold by_email. apply String.eqb_neq. now apply Hfree.
    + unfold by_email. apply String.eqb_refl.
Qed.

(** X3. Signup checks the e-mail only: when the e-mail is new but the
    username is taken (and the password is within bcrypt's 72 bytes, so
    that the commit is reached), the unique constraint fails at commit and
    [IntegrityError] leaves the view; no row is stored, nothing is mailed
    and nothing is flashed. *)
Theorem signup_duplicate_username (req : Request) (w : World) (u : User) :
  validate_on_submit SignupForm req = true ->
  String.length (field "password" (form_data req)) <= bcrypt_max_password ->
  (forall v, In v (db w) -> email v <> field "email" (form_data req)) ->
  In u (db w) ->
  username u = field "username" (form_data req) ->
  fst (signup config req w) = Raise IntegrityError
  /\ db (snd (signup config req w)) = db w
  /\ outbox (snd (signup config req w)) = outbox w
  /\ flashes (snd (signup config req w)) = flashes w.
Proof.
  intros Hv Hlen Hfree Hin Hname.
  assert (Hnone : first_by (by_email (field "email" (form_data req))) (db w) = None).
  { apply first_by_none. intros v Hv'. unfold by_email. apply String.eqb_neq.
    now apply Hfree. }
  assert (Hvu : existsb (fun r => by_username (field "username" (form_data req)) r
                                  || by_email (field "email" (form_data req)) r)
                  (db w) = true).
  { apply existsb_exists. exists u. split; [exact Hin|].
    unfold by_username. rewrite Hname, String.eqb_refl. reflexivity. }
  assert (Hrun : signup config req w
                 = (Raise IntegrityError, with_salts_drawn w (S (salts_drawn w)))).
  { unfold signup. rewrite Hv. run. rewrite Hnone.
    rewrite (bcrypt_hashpw_within _ _ _ Hlen).
    unfold add_and_commit, violates_unique. cbn -[dumps]. now rewrite Hvu. }
  rewrite Hrun. cbn. auto.
Qed.

(** X21. Passwords past bcrypt's 72 bytes.  No form bounds the length, so:
    a Signup with a new e-mail raises [ValueError] at the hashing, before
    anything is stored, mailed or flashed; a Signin for a stored username
    raises [ValueError] at the check, with nothing flashed and the session
    untouched, while a Signin for an unknown username gets the generic
    failure whatever the password is. *)
Theorem password_too_long (req : Request) (w : World) :
  bcrypt_max_password < String.length (field "password" (form_data req)) ->
  (validate_on_submit SignupForm req = true ->
   (forall v, In v (db w) -> email v <> field "email" (form_data req)) ->
   signup config req w = (Raise ValueError, with_salts_drawn w (S (salts_drawn w))))
  /\ (validate_on_submit SigninForm req = true ->
      (exists u, In u (db w) /\ username u = field "username" (form_data req)) ->
      signin req w = (Raise ValueError, w))
  /\ (validate_on_submit SigninForm req = true ->
      (forall v, In v (db w) -> username v <> field "username" (form_data req)) ->
      signin req w
      = (Return (Render "signin.html"),
         with_flashes w
           (flashes w ++ [("Invalid username or password.", "danger")])%list)).
Proof.
  intros Hlong. split; [|split].
  - intros Hv Hfree.
    assert (Hnone : first_by (by_email (field "email" (form_data req))) (db w) = None).
    { apply first_by_none. intros v Hv'. unfold by_email. apply String.eqb_neq.
      now apply Hfree. }
    unfold signup. rewrite Hv. run. rewrite Hnone.
    now rewrite (bcrypt_hashpw_too_long _ _ _ Hlong).
  - intros Hv [u [Hin Hname]].
    destruct (first_by_exists (by_username (field "username" (form_data req)))
                (db w) u Hin) as [v Hfound].
    { unfold by_username. rewrite Hname. apply String.eqb_refl. }
    unfold signin. rewrite Hv. run. rewrite Hfound.
    now rewrite (bcrypt_checkpw_too_long _ _ _ Hlong).
  - intros Hv Habsent. unfold signin. rewrite Hv. run.
    rewrite first_by_none; [reflexivity|].
    intros v Hv'. unfold by_username. apply String.eqb_neq. now apply Habsent.
Qed.

(** X4. A Signup that does not validate does nothing: a GET, a request
    without a valid CSRF token, an empty username, e-mail or password, or
    an e-mail the syntax check refuses only renders the form. *)
Theorem signup_not_validated (req : Request) (w : World) :
  method req = GET \/ csrf_valid req = false
  \/ field "username" (form_data req) = EmptyString
  \/ field "email" (form_data req) = EmptyString
  \/ field "password" (form_data req) = EmptyString
  \/ email_syntax (field "email" (form_data req)) = false ->
  signup config req w = (Return (Render "signup.html"), w).
Proof.
  intros H.
  assert (Hv : validate_on_submit SignupForm req = false).
  { unfold validate_on_submit, SignupForm.
    destruct H as [-> | [-> | [-> | [-> | [-> | ->]]]]];
      destruct (method req); try reflexivity;
      rewrite ?DataRequired_empty, ?andb_false_r; reflexivity. }
  unfold signup. now rewrite Hv.
Qed.

(** ** Links for users that are gone, and forms that do not validate *)

(** X5. A token that verifies to an e-mail no stored user has (the account
    was deleted, say) is answered like a forged one: the [NotFound] of
    [first_or_404] is caught by the handler's own [except Exception], so
    both confirming routes flash their "Invalid ... link." message,
    redirect to the sign-in page and change nothing else. *)
Theorem link_for_missing_user (token e : string) (req : Request) (w : World) :
  (forall u, In u (db w) -> email u <> e) ->
  (serializer_loads config token "email-confirmation" 3600 w = (Return e, w) ->
   confirm_email config token w
   = (Return (Redirect "signin"),
      with_flashes w (flashes w ++ [("Invalid confirmation link.", "danger")])%list))
  /\ (serializer_loads config token "password-reset" 3600 w = (Return e, w) ->
      reset_password_confirm config token req w
      = (Return (Redirect "signin"),
         with_flashes w (flashes w ++ [("Invalid reset link.", "danger")])%list)).
Proof.
  intros Hnone.
  assert (Hfind : first_by (by_email e) (db w) = None).
  { apply first_by_none. intros u Hu. unfold by_email. apply String.eqb_neq.
    now apply Hnone. }
  split; intros Hload.
  - unfold confirm_email. run. rewrite Hload, Hfind. reflexivity.
  - unfold reset_password_confirm. run. rewrite Hload, Hfind. reflexivity.
Qed.

(** X6. A valid reset link whose form does not validate changes nothing:
    on a GET, without a valid CSRF token, with an empty new password or
    with a confirmation that differs from the new password, the handler
    renders the form again; no password is written and nothing is flashed. *)
Theorem reset_form_not_validated (token : string) (req : Request) (w : World)
    (u : User) :
  In u (db w) ->
  serializer_loads config token "password-reset" 3600 w = (Return (email u), w) ->
  method req = GET \/ csrf_valid req = false
  \/ field "new_password" (form_data req) = EmptyString
  \/ field "confirm_password" (form_data req) <> field "new_password" (form_data req) ->
  reset_password_confirm config token req w
  = (Return (Render "reset_password_confirm.html"), w).
Proof.
  intros Hin Hload H.
  assert (Hv : validate_on_submit ResetPasswordConfirmForm req = false).
  { unfold validate_on_submit, ResetPasswordConfirmForm.
    destruct H as [-> | [-> | [-> | Hne]]]; destruct (method req); try reflexivity.
    - rewrite DataRequired_empty. apply andb_false_r.
    - apply String.eqb_neq in Hne. rewrite Hne, !andb_false_r. reflexivity. }
  destruct (first_by_exists (by_email (email u)) (db w) u Hin) as [v Hfound].
  { unfold by_email. apply String.eqb_refl. }
  unfold reset_password_confirm. run. rewrite Hload, Hfound, Hv. reflexivity.
Qed.

(** ** Requesting a reset link *)

(** X7. RequestPasswordReset for an e-mail no stored user has flashes
    "Email not found." (category danger) and renders the form: no token is
    issued, nothing is mailed, and the answer differs from the one for a
    known e-mail. *)
Theorem reset_password_unknown_email (req : Request) (w : World) :
  validate_on_submit ResetPasswordForm req = true ->
  (forall u, In u (db w) -> email u <> field "email" (form_data req)) ->
  reset_password config req w
  = (Return (Render "reset_password.html"),
     with_flashes w (flashes w ++ [("Email not found.", "danger")])%list).
Proof.
  intros Hv Hnone. unfold reset_password. rewrite Hv. run.
  rewrite first_by_none; [reflexivity|].
  intros u Hu. unfold by_email. apply String.eqb_neq. now apply Hnone.
Qed.

Lemma reset_password_run (req : Request) (w : World) (u : User) (token : string) :
  validate_on_submit ResetPasswordForm req = true ->
  In u (db w) ->
  email u = field "email" (form_data req) ->
  generate_token config (email u) "password-reset" w = (Return token, w) ->
  reset_password config req w
  = (if mail_transport w (reset_mail config (email u) token)
     then (Return (Redirect "signin"),
           with_flashes
             (with_outbox w (outbox w ++ [reset_mail config (email u) token])%list)
             (flashes w ++ [("Reset link sent to your email.", "info")])%list)
     else (Raise SMTPException, w)).
Proof.
  intros Hv Hin He Htoken.
  destruct (first_by_exists (by_email (email u)) (db w) u Hin) as [v Hfound].
  { unfold by_email. apply String.eqb_refl. }
  assert (Hve : email v = email u).
  { apply first_by_some in Hfound. destruct Hfound as [_ Hp].
    unfold by_email in Hp. now apply String.eqb_eq in Hp. }
  apply generate_token_dumps in Htoken. destruct Htoken as [Hd _].
  unfold reset_password. rewrite Hv. run. rewrite <- He, Hfound.
  unfold generate_token, mail_send. run. rewrite Hve, Hd.
  unfold reset_mail. cbn -[dumps].
  destruct (mail_transport w _); reflexivity.
Qed.

(** X8. RequestPasswordReset for a stored e-mail sends exactly one mail, to
    that address, whose link carries a token issued under the
    password-reset salt; it flashes "Reset link sent to your email." and
    leaves the table and the session as they are.  When the transport
    refuses the mail, the exception leaves the view and the world is
    exactly as before. *)
Theorem reset_password_sends_link (req : Request) (w : World) (u : User) :
  validate_on_submit ResetPasswordForm req = true ->
  In u (db w) ->
  email u = field "email" (form_data req) ->
  (clock w < 2 ^ 64)%N ->
  exists token,
    generate_token config (email u) "password-reset" w = (Return token, w)
    /\ (mail_transport w (reset_mail config (email u) token) = true ->
        reset_password config req w
        = (Return (Redirect "signin"),
           with_flashes
             (with_outbox w (outbox w ++ [reset_mail config (email u) token])%list)
             (flashes w ++ [("Reset link sent to your email.", "info")])%list))
    /\ (mail_transport w (reset_mail config (email u) token) = false ->
        reset_password config req w = (Raise SMTPException, w)).
Proof.
  intros Hv Hin He Hclock.
  destruct (generate_token_returns config (email u) "password-reset" w Hclock)
    as [token Htoken].
  exists token. split; [exact Htoken|].
  rewrite (reset_password_run req w u token Hv Hin He Htoken).
  split; intros ->; reflexivity.
Qed.

(** X9. RequestPasswordReset composed with ConfirmPasswordReset: the token
    of the mail a reset request sent (at a clock reading that is still a
    date), presented within 3600 seconds with a form that validates and a
    new password within bcrypt's 72 bytes, is answered "Password reset
    successful!"; afterwards the row stored under the id of the user the
    mail went to carries the hash of the new password, and every other
    row is as before. *)
Theorem reset_request_then_confirm (req form : Request) (w w2 : World) (u : User) :
  base64_roundtrip -> base64_urlsafe -> json_roundtrip -> zlib_roundtrip ->
  validate_on_submit ResetPasswordForm req = true ->
  In u (db w) ->
  email u = field "email" (form_data req) ->
  (clock w <= max_datetime)%N ->
  (forall m, recipients m = [email u] -> mail_transport w m = true) ->
  consistent (db w2) ->
  In u (db w2) ->
  (clock w <= clock w2)%N ->
  (clock w2 <= clock w + 3600)%N ->
  validate_on_submit ResetPasswordConfirmForm form = true ->
  String.length (field "new_password" (form_data form)) <= bcrypt_max_password ->
  let h := hashpw (field "new_password" (form_data form)) (gensalt (salts_drawn w2)) in
  exists token,
    In (reset_mail config (email u) token)
       (outbox (snd (reset_password config req w)))
    /\ fst (reset_password_confirm config token form w2) = Return (Redirect "signin")
    /\ flashes (snd (reset_password_confirm config token form w2))
       = (flashes w2 ++ [("Password reset successful!", "success")])%list
    /\ (exists u',
          first_by (by_id (id u))
            (db (snd (reset_password_confirm config token form w2))) = Some u'
          /\ password u' = h /\ username u' = username u /\ email u' = email u
          /\ is_confirmed u' = is_confirmed u)
    /\ (forall r, id r <> id u ->
          (In r (db (snd (reset_password_confirm config token form w2)))
           <-> In r (db w2))).
Proof.
  intros b64 b64_safe json zlib Hvr Hinw He Hrange Hmail Hc Hin Hle Hfresh Hv Hlen h.
  assert (Hclock : (clock w < 2 ^ 64)%N).
  { apply (N.le_lt_trans _ _ _ Hrange). apply N.ltb_lt. reflexivity. }
  destruct (generate_token_returns config (email u) "password-reset" w Hclock)
    as [token Htoken].
  exists token. split.
  - rewrite (reset_password_run req w u token Hvr Hinw He Htoken).
    rewrite Hmail by reflexivity. cbn. apply in_or_app. right. now left.
  - assert (Hload : serializer_loads config token "password-reset" 3600 w2
                    = (Return (email u), w2)).
    { rewrite serializer_loads_eq. f_equal.
      apply generate_token_dumps in Htoken. destruct Htoken as [Hd _].
      apply (loads_dumps_fresh b64 b64_safe json zlib _ _ _ _ _ _ _ Hd Hrange Hle).
      lia. }
    assert (Hrun : reset_password_confirm config token form w2
      = (Return (Redirect "signin"),
         with_flashes
           (with_db (with_salts_drawn w2 (S (salts_drawn w2)))
              (update_row (set_password u h) (db w2)))
           (flashes w2 ++ [("Password reset successful!", "success")])%list)).
    { unfold reset_password_confirm. run. rewrite Hload.
      rewrite (first_by_email (db w2) u Hc Hin), Hv.
      rewrite (bcrypt_hashpw_within _ _ _ Hlen). reflexivity. }
    rewrite Hrun. cbn [fst snd db flashes with_flashes with_db].
    rewrite (update_row_kept (db w2) u (fun r => set_password r h) Hc Hin
               (keeps_identity_password h)).
    split; [reflexivity|]. split; [reflexivity|]. split.
    + exists (set_password u h). split; [|cbn; auto].
      apply (first_by_id _ (set_password u h)).
      * apply consistent_pointwise; [|exact Hc].
        intros r. destruct (by_id (id u) r); cbn; auto.
      * apply in_map_iff. exists u. split; [|exact Hin].
        unfold by_id. now rewrite Nat.eqb_refl.
    + intros r Hne. rewrite in_map_iff. split.
      * intros [r0 [Hr0 Hr0in]]. unfold by_id in Hr0.
        destruct (Nat.eqb_spec (id r0) (id u)) as [E|E]; subst r; [|exact Hr0in].
        exfalso. apply Hne. cbn. exact E.
      * intros Hr. exists r. split; [|exact Hr]. unfold by_id.
        destruct (Nat.eqb_spec (id r) (id u)) as [E|E]; [contradiction|reflexivity].
Qed.

(** ** Tokens across purposes and across requests *)

Lemma other_salt_raises (a b email_ token : string) (w0 w0' w : World) :
  base64_roundtrip -> base64_urlsafe ->
  salt_separated (SECRET_KEY config) a b ->
  generate_token config email_ a w0 = (Return token, w0') ->
  exists e, serializer_loads config token b 3600 w = (Raise e, w)
            /\ exception_eqb e SignatureExpired = false.
Proof.
  intros b64 b64_safe Hsep Hgen.
  apply generate_token_dumps in Hgen. destruct Hgen as [Hd _].
  pose proof (dumps_other_salt_rejected _ _ _ _ _ _ b64 b64_safe Hsep Hd) as Hrej.
  destruct (loads_signature_rejected (SECRET_KEY config) b token (clock w)
              (Some 3600%Z) Hrej) as [e [He Hf]].
  exists e. rewrite serializer_loads_eq, He. split; [reflexivity|].
  destruct Hf as [-> | ->]; reflexivity.
Qed.

(** X10. A link of one purpose does nothing on the route of the other: the
    token of a confirmation mail presented to ConfirmPasswordReset is
    answered "Invalid reset link." and no password changes, and the token
    of a reset mail presented to ConfirmEmail is answered "Invalid
    confirmation link." and nobody is confirmed; at any age of the token,
    whatever the form. *)
Theorem link_of_other_purpose (email_ token : string) (req : Request)
    (w0 w0' w : World) :
  base64_roundtrip -> base64_urlsafe ->
  (salt_separated (SECRET_KEY config) "email-confirmation" "password-reset" ->
   generate_token config email_ "email-confirmation" w0 = (Return token, w0') ->
   reset_password_confirm config token req w
   = (Return (Redirect "signin"),
      with_flashes w (flashes w ++ [("Invalid reset link.", "danger")])%list))
  /\ (salt_separated (SECRET_KEY config) "password-reset" "email-confirmation" ->
      generate_token config email_ "password-reset" w0 = (Return token, w0') ->
      confirm_email config token w
      = (Return (Redirect "signin"),
         with_flashes w (flashes w ++ [("Invalid confirmation link.", "danger")])%list)).
Proof.
  intros b64 b64_safe. split; intros Hsep Hgen;
    destruct (other_salt_raises _ _ _ _ _ _ w b64 b64_safe Hsep Hgen)
      as [e [He Hne]].
  - unfold reset_password_confirm. run. rewrite He, Hne. reflexivity.
  - unfold confirm_email. run. rewrite He, Hne. reflexivity.
Qed.

(** ** What a request leaves alone *)

(** A change of the table that removes no row. *)
Inductive table_kept (rows : list User) : list User -> Prop :=
| kept_same : table_kept rows rows
| kept_update (u : User) (f : User -> User) :
    In u rows -> keeps_identity f ->
    table_kept rows (update_row (f u) rows)
| kept_insert (row : User) :
    table_kept rows (rows ++ [row])%list.

Lemma table_kept_row (rows rows' : list User) (u : User) :
  consistent rows -> table_kept rows rows' -> In u rows ->
  exists u', In u' rows' /\ id u' = id u
             /\ (is_confirmed u = true -> is_confirmed u' = true).
Proof.
  intros Hc Hk Hu. destruct Hk as [|u0 f Hin Hf|row].
  - exists u. auto.
  - rewrite (update_row_kept rows u0 f Hc Hin Hf).
    exists (if by_id (id u0) u then f u else u). split; [|split].
    + apply in_map_iff. exists u. auto.
    + destruct (by_id (id u0) u); [apply Hf | reflexivity].
    + destruct (by_id (id u0) u); [apply Hf | auto].
  - exists u. split; [apply in_or_app; now left | auto].
Qed.

Ltac lookup :=
  repeat match goal with
         | H : first_by _ _ = Some _ |- _ =>
             apply first_by_some in H; destruct H
         end.

Ltac open_routes :=
  unfold index, signup, confirm_email, signin, profile, logout, reset_password,
    reset_password_confirm, change_password, delete_account, login_required,
    send_confirmation_email, generate_token, add_and_commit, mail_send,
    bcrypt_hashpw, bcrypt_checkpw;
  run; rewrite ?serializer_loads_eq.

(** No route touches the clock or the mail transport. *)
Lemma dispatch_environment (c : Call) (w : World) :
  clock (snd (dispatch config c w)) = clock w
  /\ mail_transport (snd (dispatch config c w)) = mail_transport w.
Proof.
  destruct c; cbn [dispatch]; open_routes; cases; split; reflexivity.
Qed.

(** X11. Tokens are not consumed: whatever request is served in between,
    ConfirmEmail and ConfirmPasswordReset included, a token verifies
    afterwards exactly as it did before; a link can be used again until it
    expires. *)
Theorem token_survives_requests (c : Call) (w : World) (token salt : string) (m : Z) :
  fst (serializer_loads config token salt m (snd (dispatch config c w)))
  = fst (serializer_loads config token salt m w).
Proof.
  rewrite !serializer_loads_eq. cbn [fst].
  now rewrite (proj1 (dispatch_environment c w)).
Qed.

(** How each route treats the session and the rows of the table. *)
Lemma dispatch_session (c : Call) (w : World) :
  let w' := snd (dispatch config c w) in
  (session_user_id w' = session_user_id w /\ table_kept (db w) (db w'))
  \/ (opens_session c = true /\ db w' = db w
      /\ exists u, In u (db w) /\ is_confirmed u = true
                   /\ session_user_id w' = Some (id u))
  \/ (closes_session c = true /\ session_user_id w' = None).
Proof.
  destruct c; cbn [dispatch]; open_routes; cases; lookup;
    first [ solve [left; split; [congruence | constructor]]
          | solve [right; right; split; congruence]
          | solve [right; left; split; [reflexivity|]; split; [reflexivity|];
                   eexists; eauto]
          | left; split; [congruence|] ].
  all: match goal with
       | H : In ?u (db ?v) |- table_kept _ (update_row (set_is_confirmed _ true) _) =>
           exact (kept_update (db v) u (fun r => set_is_confirmed r true) H
                    keeps_identity_confirm)
       | H : In ?u (db ?v) |- table_kept _ (update_row (set_password _ ?h) _) =>
           exact (kept_update (db v) u (fun r => set_password r h) H
                    (keeps_identity_password h))
       end.
Qed.

(** X12. Which routes touch the session.  A request either leaves the
    session as it is and removes no row of the table; or it is a Signin that
    binds the session to the id of a stored, confirmed user and leaves the
    table alone; or it is a Logout or DeleteAccount that ends the session.
    Signup, both confirming routes, both reset routes and ChangePassword
    never sign anybody in or out. *)
Theorem session_touched_by (c : Call) (w : World) :
  let w' := snd (dispatch config c w) in
  (session_user_id w' = session_user_id w /\ table_kept (db w) (db w'))
  \/ (opens_session c = true /\ db w' = db w
      /\ exists u, In u (db w) /\ is_confirmed u = true
                   /\ session_user_id w' = Some (id u))
  \/ (closes_session c = true /\ session_user_id w' = None).
Proof. exact (dispatch_session c w). Qed.

(** X14. The unique constraints as an invariant: in every reachable world
    no two stored users share an id, a username or an e-mail.  The e-mail
    is guarded by the check of Signup, the username by the table itself. *)
Theorem store_constraints_hold (w : World) :
  reachable config w -> consistent (db w).
Proof. apply reachable_consistent. Qed.

(** X15. Which routes send mail: a request leaves the outbox as it is, or
    it is a Signup or a RequestPasswordReset and appends exactly one
    message.  Confirming, resetting, changing a password and deleting an
    account never send a notification. *)
Theorem outbox_touched_by (c : Call) (w : World) :
  outbox (snd (dispatch config c w)) = outbox w
  \/ (sends_mail c = true
      /\ exists m, outbox (snd (dispatch config c w)) = (outbox w ++ [m])%list).
Proof.
  destruct c; cbn [dispatch]; open_routes; cases;
    first [ solve [left; reflexivity]
          | solve [right; split; [reflexivity | eexists; reflexivity]] ].
Qed.

(** ** Routes behind [@login_required] *)

Definition protected (c : Call) : bool :=
  match c with
  | CallProfile | CallLogout | CallChangePassword _ | CallDeleteAccount _ => true
  | _ => false
  end.

(** X16. Without a session, or with a session whose user is no longer
    stored, every protected route (profile, logout, change password, delete
    account) flashes "Please log in to access this page." and redirects to
    the sign-in page; no password is changed and no row is deleted, whatever
    the request carries. *)
Theorem protected_route_anonymous (c : Call) (w : World) :
  protected c = true ->
  session_user_id w = None
  \/ (exists i, session_user_id w = Some i /\ forall u, In u (db w) -> id u <> i) ->
  dispatch config c w
  = (Return (Redirect "signin"),
     with_flashes w
       (flashes w ++ [("Please log in to access this page.", "message")])%list).
Proof.
  intros Hp Hanon.
  assert (Hcu : current_user w = (Return None, w)).
  { unfold current_user. run. destruct Hanon as [-> | [i [-> Hgone]]]; [reflexivity|].
    rewrite first_by_none; [reflexivity|].
    intros u Hu. unfold by_id. apply Nat.eqb_neq. now apply Hgone. }
  destruct c; try discriminate Hp; cbn [dispatch];
    unfold profile, logout, change_password, delete_account, login_required, bind;
    rewrite Hcu; reflexivity.
Qed.

Lemma current_user_stored (w : World) (u : User) :
  consistent (db w) -> In u (db w) -> session_user_id w = Some (id u) ->
  current_user w = (Return (Some u), w).
Proof.
  intros Hc Hin Hs. unfold current_user. run.
  now rewrite Hs, (first_by_id (db w) u Hc Hin).
Qed.

(** X17. ChangePassword with a wrong old password.  When bcrypt checks the
    old password against the stored hash and rejects it, the handler
    flashes "Incorrect old password." (category danger) and renders the
    form.  When bcrypt cannot check it, as for an old password of more than
    72 bytes, its exception leaves the view and nothing is flashed.  In
    both cases the stored hash, the table and the session stay as they
    are. *)
Theorem change_password_wrong_old (req : Request) (w : World) (u : User) :
  consistent (db w) -> In u (db w) ->
  session_user_id w = Some (id u) ->
  validate_on_submit ChangePasswordForm req = true ->
  (bcrypt_checkpw (field "old_password" (form_data req)) (password u) w
   = (Return false, w) ->
   change_password req w
   = (Return (Render "change_password.html"),
      with_flashes w (flashes w ++ [("Incorrect old password.", "danger")])%list))
  /\ (forall e,
        bcrypt_checkpw (field "old_password" (form_data req)) (password u) w
        = (Raise e, w) ->
        change_password req w = (Raise e, w))
  /\ (bcrypt_max_password < String.length (field "old_password" (form_data req)) ->
      change_password req w = (Raise ValueError, w)).
Proof.
  intros Hc Hin Hs Hv.
  assert (Hraise : forall e,
             bcrypt_checkpw (field "old_password" (form_data req)) (password u) w
             = (Raise e, w) ->
             change_password req w = (Raise e, w)).
  { intros e Hpw. unfold change_password, login_required, bind.
    rewrite (current_user_stored w u Hc Hin Hs). run. now rewrite Hv, Hpw. }
  split; [|split].
  - intros Hpw. unfold change_password, login_required, bind.
    rewrite (current_user_stored w u Hc Hin Hs). run. now rewrite Hv, Hpw.
  - exact Hraise.
  - intros Hlong. apply Hraise. now apply bcrypt_checkpw_too_long.
Qed.

(** X18. DeleteAccount.  A POST by the signed-in user removes that user's
    row and no other, ends the session and redirects to the sign-in page;
    afterwards no lookup by the user's name or e-mail finds a row, so a
    Signin with the deleted user's name gets the generic failure.  A GET
    only renders the confirmation page. *)
Theorem delete_account_removes (req signin_req : Request) (w : World) (u : User) :
  consistent (db w) -> In u (db w) ->
  session_user_id w = Some (id u) ->
  let w' := snd (delete_account req w) in
  (method req = GET ->
     delete_account req w = (Return (Render "delete_account.html"), w))
  /\ (method req = POST ->
      fst (delete_account req w) = Return (Redirect "signin")
      /\ session_user_id w' = None
      /\ (forall r, In r (db w') <-> In r (db w) /\ r <> u)
      /\ first_by (by_email (email u)) (db w') = None
      /\ (validate_on_submit SigninForm signin_req = true ->
          field "username" (form_data signin_req) = username u ->
          signin signin_req w'
          = (Return (Render "signin.html"),
             with_flashes w'
               (flashes w' ++ [("Invalid username or password.", "danger")])%list))).
Proof.
  intros Hc Hin Hs w'.
  assert (Hcu := current_user_stored w u Hc Hin Hs).
  split; intros Hm.
  - unfold delete_account, login_required, bind. rewrite Hcu, Hm. reflexivity.
  - assert (Hrun : delete_account req w
      = (Return (Redirect "signin"),
         with_flashes (with_session (with_db w (delete_row u (db w))) None)
           (flashes w ++ [("Account deleted successfully.", "success")])%list)).
    { unfold delete_account, login_required, bind. rewrite Hcu, Hm. reflexivity. }
    assert (Hdb : db w' = delete_row u (db w)) by (unfold w'; now rewrite Hrun).
    assert (Hmem : forall r, In r (db w') <-> In r (db w) /\ r <> u).
    { intros r. rewrite Hdb. unfold delete_row. rewrite filter_In. unfold by_id.
      destruct Hc as [Hnd _]. split.
      - intros [Hr Hne]. split; [exact Hr|]. intros ->.
        now rewrite Nat.eqb_refl in Hne.
      - intros [Hr Hne]. split; [exact Hr|].
        destruct (Nat.eqb_spec (id r) (id u)) as [E|E]; [|reflexivity].
        exfalso. apply Hne. exact (same_id_same_row (db w) r u Hnd Hr Hin E). }
    assert (Hgone : forall (key : User -> string),
               NoDup (map key (db w)) ->
               first_by (fun r => String.eqb (key r) (key u)) (db w') = None).
    { intros key Hnd. apply first_by_none. intros r Hr.
      apply Hmem in Hr. destruct Hr as [Hr Hne]. apply String.eqb_neq.
      intros E. apply Hne. clear Hne.
      pose proof (first_by_key key String.eqb (db w) u String.eqb_eq Hnd Hin) as Hu.
      pose proof (first_by_key key String.eqb (db w) r String.eqb_eq Hnd Hr) as Hr'.
      rewrite E in Hr'. congruence. }
    split; [now rewrite Hrun|]. split; [unfold w'; now rewrite Hrun|].
    split; [exact Hmem|]. split.
    + apply (Hgone email). apply Hc.
    + intros Hv Hname. unfold signin. rewrite Hv. run. rewrite Hname.
      change (by_username (username u)) with (fun r => String.eqb (username r) (username u)).
      rewrite (Hgone username) by apply Hc. reflexivity.
Qed.

(** X19. Signin composed with the protected routes: once a stored,
    confirmed user has signed in, the profile page is served; after Logout
    it is not, and the request is sent back to the sign-in page. *)
Theorem signin_then_profile (req : Request) (w : World) (u : User) :
  consistent (db w) -> In u (db w) ->
  username u = field "username" (form_data req) ->
  validate_on_submit SigninForm req = true ->
  bcrypt_checkpw (field "password" (form_data req)) (password u) w
  = (Return true, w) ->
  is_confirmed u = true ->
  let signed_in := snd (signin req w) in
  let signed_out := snd (logout signed_in) in
  fst (profile signed_in) = Return (Render "profile.html")
  /\ session_user_id signed_out = None
  /\ fst (profile signed_out) = Return (Redirect "signin").
Proof.
  intros Hc Hin Hname Hv Hpw Hconf signed_in signed_out.
  assert (Hrun : signin req w
     = (Return (Redirect "profile"),
        with_flashes (with_session w (Some (id u)))
          (flashes w ++ [("Sign in successful!", "success")])%list)).
  { unfold signin. rewrite Hv. run.
    rewrite <- Hname, (first_by_username (db w) u Hc Hin).
    rewrite Hpw, Hconf. reflexivity. }
  assert (Hcu : current_user signed_in = (Return (Some u), signed_in)).
  { apply current_user_stored; unfold signed_in; rewrite Hrun; cbn; auto. }
  assert (Hout : logout signed_in
     = (Return (Redirect "signin"),
        with_flashes (with_session signed_in None)
          (flashes signed_in ++ [("Logged out successfully.", "info")])%list)).
  { unfold logout, login_required, bind. rewrite Hcu. reflexivity. }
  split; [|split].
  - unfold profile, login_required, bind. now rewrite Hcu.
  - unfold signed_out. now rewrite Hout.
  - unfold signed_out. rewrite Hout. reflexivity.
Qed.

(** X20. A reset composed with Signin: after a ConfirmPasswordReset that
    went through (valid token, valid form, new password within bcrypt's 72
    bytes) for a stored, confirmed user, a Signin with the user's name and
    the new password opens the session of that user (bcrypt accepts a
    password against its own hash), and a Signin with a password bcrypt
    checks and rejects against the new hash gets the generic failure and
    leaves the session as it was. *)
Theorem reset_then_signin (token : string) (form req : Request) (w : World)
    (u : User) :
  bcrypt_checks ->
  consistent (db w) -> In u (db w) -> is_confirmed u = true ->
  serializer_loads config token "password-reset" 3600 w = (Return (email u), w) ->
  validate_on_submit ResetPasswordConfirmForm form = true ->
  String.length (field "new_password" (form_data form)) <= bcrypt_max_password ->
  validate_on_submit SigninForm req = true ->
  field "username" (form_data req) = username u ->
  let h := hashpw (field "new_password" (form_data form)) (gensalt (salts_drawn w)) in
  let w' := snd (reset_password_confirm config token form w) in
  flashes w' = (flashes w ++ [("Password reset successful!", "success")])%list
  /\ (field "password" (form_data req) = field "new_password" (form_data form) ->
      signin req w'
      = (Return (Redirect "profile"),
         with_flashes (with_session w' (Some (id u)))
           (flashes w' ++ [("Sign in successful!", "success")])%list))
  /\ (bcrypt_checkpw (field "password" (form_data req)) h w' = (Return false, w') ->
      signin req w'
      = (Return (Render "signin.html"),
         with_flashes w'
           (flashes w' ++ [("Invalid username or password.", "danger")])%list)).
Proof.
  intros Hb Hc Hin Hconf Hload Hvf Hlen Hvs Hname h w'.
  assert (Hrun : reset_password_confirm config token form w
    = (Return (Redirect "signin"),
       with_flashes
         (with_db (with_salts_drawn w (S (salts_drawn w)))
            (update_row (set_password u h) (db w)))
         (flashes w ++ [("Password reset successful!", "success")])%list)).
  { unfold reset_password_confirm. run. rewrite Hload.
    rewrite (first_by_email (db w) u Hc Hin), Hvf.
    rewrite (bcrypt_hashpw_within _ _ _ Hlen). reflexivity. }
  assert (Hdb : db w' = map (fun r => if by_id (id u) r then set_password r h else r)
                          (db w)).
  { unfold w'. rewrite Hrun. cbn [snd db with_flashes with_db].
    exact (update_row_kept (db w) u (fun r => set_password r h) Hc Hin
             (keeps_identity_password h)). }
  assert (Hc' : consistent (db w')).
  { rewrite Hdb. apply consistent_pointwise; [|exact Hc].
    intros r. destruct (by_id (id u) r); cbn; auto. }
  assert (Hin' : In (set_password u h) (db w')).
  { rewrite Hdb. apply in_map_iff. exists u. split; [|exact Hin].
    unfold by_id. now rewrite Nat.eqb_refl. }
  assert (Hfound : first_by (by_username (field "username" (form_data req))) (db w')
                   = Some (set_password u h)).
  { rewrite Hname. exact (first_by_username (db w') (set_password u h) Hc' Hin'). }
  split; [unfold w'; now rewrite Hrun|]. split.
  - intros Hpw. unfold signin. rewrite Hvs. run. rewrite Hfound.
    cbn [password set_password is_confirmed]. rewrite Hpw.
    assert (Hcheck : bcrypt_checkpw (field "new_password" (form_data form)) h w'
                     = (Return true, w')).
    { unfold bcrypt_checkpw.
      destruct (Nat.ltb_spec bcrypt_max_password
                  (String.length (field "new_password" (form_data form))));
        [lia|].
      unfold h. now rewrite (Hb _ _ Hlen). }
    rewrite Hcheck, Hconf. reflexivity.
  - intros Hpw. unfold signin. rewrite Hvs. run. rewrite Hfound.
    cbn [password set_password]. rewrite Hpw. reflexivity.
Qed.

End Properties.

(** ** The properties at work on the sample instance *)

Import Sample.

(** Alice, confirmed and signed in. *)
Definition signed_in : World :=
  snd (signin (alice_signin "pw1") after_confirm).

Definition alice_confirmed : User := set_is_confirmed alice_row true.

Definition alice_again : Request :=
  post [("username", "alice"); ("email", "alice2@x.com"); ("password", "pw9")].

Definition carol_no_password : Request :=
  post [("username", "carol"); ("email", "carol@x.com")].

Definition alice_mismatch : Request :=
  post [("new_password", "pw2"); ("confirm_password", "pw3")].

Definition reset_request (address : string) : Request :=
  post [("email", address)].

Definition alice_wrong_old : Request :=
  post [("old_password", "guess"); ("new_password", "pw2");
        ("confirm_password", "pw2")].

Lemma sample_bcrypt_checks : bcrypt_checks.
Proof. intros pw n _. cbn. now rewrite String.eqb_refl. Qed.

Lemma sample_reachable_signed_in : reachable sample_config signed_in.
Proof.
  apply (reachable_step sample_config after_confirm).
  - exact sample_reachable_after_confirm.
  - exact (step_call sample_config (CallSignin (alice_signin "pw1")) after_confirm).
Qed.

Lemma sample_consistent_signed_in : consistent (db signed_in).
Proof. exact (reachable_consistent sample_config signed_in sample_reachable_signed_in). Qed.

Lemma signup_creates_account_witness :
  db (snd (signup sample_config alice_signup (fresh_world 1000 true))) = [alice_row]
  /\ outbox (snd (signup sample_config alice_signup (fresh_world 1000 true)))
     = [confirmation_mail sample_config "alice@x.com" alice_token].
Proof.
  destruct (signup_creates_account sample_config alice_signup (fresh_world 1000 true))
    as [token [Htoken [_ [Hdb [_ [Hout _]]]]]].
  - reflexivity.
  - apply Nat.leb_le. reflexivity.
  - intros u [].
  - apply N.ltb_lt. reflexivity.
  - reflexivity.
  - split; [exact Hdb|].
    assert (Ht : token = alice_token).
    { unfold alice_token.
      change (field "email" (form_data alice_signup)) with "alice@x.com" in Htoken.
      now rewrite Htoken. }
    rewrite Hout, Ht. reflexivity.
Defined.

Lemma signup_then_confirm_witness :
  db (snd (confirm_email sample_config alice_token (with_clock after_signup 1010)))
  = [alice_confirmed].
Proof.
  destruct (signup_then_confirm sample_config alice_signup (fresh_world 1000 true)
              (with_clock after_signup 1010) alice_token
              sample_base64_roundtrip sample_base64_urlsafe
              sample_json_roundtrip sample_zlib_roundtrip) as [_ Hrun].
  - reflexivity.
  - apply Nat.leb_le. reflexivity.
  - intros u [].
  - reflexivity.
  - reflexivity.
  - reflexivity.
  - apply N.leb_le. reflexivity.
  - apply N.leb_le. reflexivity.
  - apply N.leb_le. reflexivity.
  - rewrite Hrun. reflexivity.
Defined.

Lemma signup_duplicate_username_witness :
  fst (signup sample_config alice_again after_signup) = Raise IntegrityError
  /\ db (snd (signup sample_config alice_again after_signup)) = [alice_row].
Proof.
  destruct (signup_duplicate_username sample_config alice_again after_signup alice_row)
    as [Hraise [Hdb _]].
  - reflexivity.
  - apply Nat.leb_le. reflexivity.
  - intros v [<- | []]. discriminate.
  - left. reflexivity.
  - reflexivity.
  - split; [exact Hraise | exact Hdb].
Defined.

Lemma password_too_long_witness :
  signin (alice_signin long_password) after_signup = (Raise ValueError, after_signup)
  /\ fst (signin (post [("username", "bob"); ("password", long_password)])
            after_signup)
     = Return (Render "signin.html").
Proof.
  split.
  - refine (proj1 (proj2 (password_too_long sample_config
                            (alice_signin long_password) after_signup _)) _ _).
    + apply Nat.ltb_lt. reflexivity.
    + reflexivity.
    + exists alice_row. split; [left|]; reflexivity.
  - rewrite (proj2 (proj2 (password_too_long sample_config
                             (post [("username", "bob"); ("password", long_password)])
                             after_signup
                             ltac:(apply Nat.ltb_lt; reflexivity)))).
    + reflexivity.
    + reflexivity.
    + intros v [<- | []]. discriminate.
Defined.

Lemma signup_not_validated_witness :
  signup sample_config carol_no_password after_signup
  = (Return (Render "signup.html"), after_signup).
Proof.
  apply signup_not_validated. right. right. right. right. left. reflexivity.
Defined.

Lemma link_for_missing_user_witness :
  confirm_email sample_config alice_token (fresh_world 1010 true)
  = (Return (Redirect "signin"),
     with_flashes (fresh_world 1010 true) [("Invalid confirmation link.", "danger")]).
Proof.
  refine (proj1 (link_for_missing_user sample_config alice_token "alice@x.com"
                   alice_new_password (fresh_world 1010 true) _) _).
  - intros u [].
  - reflexivity.
Defined.

Lemma reset_form_not_validated_witness :
  reset_password_confirm sample_config alice_reset_token alice_mismatch
    (with_clock after_signup 1010)
  = (Return (Render "reset_password_confirm.html"), with_clock after_signup 1010).
Proof.
  apply (reset_form_not_validated sample_config alice_reset_token alice_mismatch
           (with_clock after_signup 1010) alice_row).
  - left. reflexivity.
  - reflexivity.
  - right. right. right. discriminate.
Defined.

Lemma reset_password_unknown_email_witness :
  reset_password sample_config (reset_request "bob@x.com") after_signup
  = (Return (Render "reset_password.html"),
     with_flashes after_signup
       (flashes after_signup ++ [("Email not found.", "danger")])%list).
Proof.
  apply reset_password_unknown_email.
  - reflexivity.
  - intros u [<- | []]. discriminate.
Defined.

Lemma reset_password_sends_link_witness :
  fst (reset_password sample_config (reset_request "alice@x.com") after_signup)
  = Return (Redirect "signin")
  /\ fst (reset_password sample_config (reset_request "alice@x.com")
            (with_mail_transport after_signup (fun _ => false)))
     = Raise SMTPException.
Proof.
  split.
  - destruct (reset_password_sends_link sample_config (reset_request "alice@x.com")
                after_signup alice_row) as [token [_ [Hok _]]].
    + reflexivity.
    + left. reflexivity.
    + reflexivity.
    + cbn. lia.
    + rewrite Hok; reflexivity.
  - destruct (reset_password_sends_link sample_config (reset_request "alice@x.com")
                (with_mail_transport after_signup (fun _ => false)) alice_row)
      as [token [_ [_ Hfail]]].
    + reflexivity.
    + left. reflexivity.
    + reflexivity.
    + cbn. lia.
    + rewrite Hfail; reflexivity.
Defined.

Lemma reset_request_then_confirm_witness :
  exists token u',
    In (reset_mail sample_config "alice@x.com" token)
       (outbox (snd (reset_password sample_config (reset_request "alice@x.com")
                       after_signup)))
    /\ first_by (by_id 1)
         (db (snd (reset_password_confirm sample_config token alice_new_password
                     (with_clock after_signup 1010)))) = Some u'
    /\ password u' = "$2b$pw2".
Proof.
  destruct (reset_request_then_confirm sample_config (reset_request "alice@x.com")
              alice_new_password after_signup (with_clock after_signup 1010)
              alice_row
              sample_base64_roundtrip sample_base64_urlsafe
              sample_json_roundtrip sample_zlib_roundtrip)
    as [token [Hmail [_ [_ [[u' [Hfound [Hpw _]]] _]]]]].
  - reflexivity.
  - left. reflexivity.
  - reflexivity.
  - apply N.leb_le. reflexivity.
  - reflexivity.
  - exact sample_consistent_after_signup.
  - left. reflexivity.
  - apply N.leb_le. reflexivity.
  - apply N.leb_le. reflexivity.
  - reflexivity.
  - apply Nat.leb_le. reflexivity.
  - exists token, u'. split; [exact Hmail|]. split; [exact Hfound | exact Hpw].
Defined.

Lemma link_of_other_purpose_witness :
  reset_password_confirm sample_config alice_token alice_new_password
    (with_clock after_signup 1010)
  = (Return (Redirect "signin"),
     with_flashes (with_clock after_signup 1010)
       (flashes after_signup ++ [("Invalid reset link.", "danger")])%list).
Proof.
  refine (proj1 (link_of_other_purpose sample_config "alice@x.com" alice_token
                   alice_new_password (fresh_world 1000 true) (fresh_world 1000 true)
                   (with_clock after_signup 1010)
                   sample_base64_roundtrip sample_base64_urlsafe) _ _).
  - apply (sample_salt_separated _ EmailConfirm PasswordReset). discriminate.
  - reflexivity.
Defined.

Lemma store_constraints_hold_witness : consistent (db after_reset).
Proof.
  apply (store_constraints_hold sample_config).
  unfold after_reset, serve.
  repeat (eapply reachable_step; [|apply step_call]).
  apply reachable_initial. split; reflexivity.
Defined.

Lemma protected_route_anonymous_witness :
  dispatch sample_config (CallDeleteAccount (post [])) after_signup
  = (Return (Redirect "signin"),
     with_flashes after_signup
       (flashes after_signup
        ++ [("Please log in to access this page.", "message")])%list).
Proof.
  apply protected_route_anonymous.
  - reflexivity.
  - left. reflexivity.
Defined.

Lemma change_password_wrong_old_witness :
  change_password alice_wrong_old signed_in
  = (Return (Render "change_password.html"),
     with_flashes signed_in
       (flashes signed_in ++ [("Incorrect old password.", "danger")])%list).
Proof.
  refine (proj1 (change_password_wrong_old alice_wrong_old signed_in alice_confirmed
                   _ _ _ _) _).
  - exact sample_consistent_signed_in.
  - left. reflexivity.
  - reflexivity.
  - reflexivity.
  - reflexivity.
Defined.

Lemma delete_account_removes_witness :
  session_user_id (snd (delete_account (post []) signed_in)) = None
  /\ first_by (by_email "alice@x.com") (db (snd (delete_account (post []) signed_in)))
     = None.
Proof.
  destruct (delete_account_removes (post []) (alice_signin "pw1") signed_in
              alice_confirmed) as [_ Hpost].
  - exact sample_consistent_signed_in.
  - left. reflexivity.
  - reflexivity.
  - destruct Hpost as [_ [Hs [_ [Hgone _]]]]; [reflexivity|].
    split; [exact Hs | exact Hgone].
Defined.

Lemma signin_then_profile_witness :
  fst (profile signed_in) = Return (Render "profile.html")
  /\ fst (profile (snd (logout signed_in))) = Return (Redirect "signin").
Proof.
  destruct (signin_then_profile (alice_signin "pw1") after_confirm alice_confirmed)
    as [Hin [_ Hout]].
  - exact (reachable_consistent sample_config after_confirm
             sample_reachable_after_confirm).
  - left. reflexivity.
  - reflexivity.
  - reflexivity.
  - reflexivity.
  - reflexivity.
  - split; [exact Hin | exact Hout].
Defined.

Lemma reset_then_signin_witness :
  let w' := snd (reset_password_confirm sample_config alice_reset_token
                   alice_new_password after_confirm) in
  session_user_id (snd (signin (alice_signin "pw2") w')) = Some 1.
Proof.
  intros w'.
  destruct (reset_then_signin sample_config alice_reset_token alice_new_password
              (alice_signin "pw2") after_confirm alice_confirmed
              sample_bcrypt_checks) as [_ [Hnew _]].
  - exact (reachable_consistent sample_config after_confirm
             sample_reachable_after_confirm).
  - left. reflexivity.
  - reflexivity.
  - reflexivity.
  - reflexivity.
  - apply Nat.leb_le. reflexivity.
  - reflexivity.
  - reflexivity.
  - unfold w'. rewrite Hnew by reflexivity. reflexivity.
Defined.

End Routes.
